(** * Resume vs Job Description Evaluator: the browser front end

    A shallow embedding of [static/script.js]: input validation, the
    error / loading / results panels, the rendering of a result, the
    score animation and the [evaluateResume] request cycle.  The file
    holds the current script and an older copy of it; the two agree on
    validation, panels and request cycle and differ in the animation
    (the older one steps a timer and uses other colours, with the same
    thresholds).  The embedding follows the current script.  Numbers are
    IEEE binary64 doubles, as in the script.

    The similarity engine runs on the server; it is modelled from the
    specification. *)

From Stdlib Require Import List String Ascii Bool Arith NArith ZArith Lia.
From Stdlib Require Import Floats.
Import ListNotations.

(** Decimal literals of numbers stand for the nearest double. *)
#[local] Set Warnings "-inexact-float".

(** ** JavaScript strings

    A JavaScript string is a sequence of UTF-16 code units; [length]
    counts code units.  Literals of the script are ASCII and are written
    with [lit]. *)

Module JsString.

Definition t := list N.

Definition lit (s : string) : t :=
  map N_of_ascii (list_ascii_of_string s).

Definition length (s : t) : nat := List.length s.

(** ECMAScript [WhiteSpace] and [LineTerminator] code points, the ones
    [String.prototype.trim] strips: TAB, VT, FF, SP, NBSP, ZWNBSP, the
    category Zs, LF, CR, LS, PS. *)
Definition is_white_space (c : N) : bool :=
  ((c =? 0x09) || (c =? 0x0B) || (c =? 0x0C) || (c =? 0x20) || (c =? 0xA0)
   || (c =? 0xFEFF) || (c =? 0x1680) || ((0x2000 <=? c) && (c <=? 0x200A))
   || (c =? 0x202F) || (c =? 0x205F) || (c =? 0x3000)
   || (c =? 0x0A) || (c =? 0x0D) || (c =? 0x2028) || (c =? 0x2029))%N.

Fixpoint trimStart (s : t) : t :=
  match s with
  | c :: s' => if is_white_space c then trimStart s' else s
  | [] => []
  end.

Definition trimEnd (s : t) : t := rev (trimStart (rev s)).

Definition trim (s : t) : t := trimEnd (trimStart s).

Fixpoint startsWith (s p : t) : bool :=
  match p, s with
  | [], _ => true
  | _ :: _, [] => false
  | x :: p', y :: s' => (x =? y)%N && startsWith s' p'
  end.

(** [s.includes(p)]: [p] occurs in [s] as a contiguous run of code units. *)
Fixpoint includes (s p : t) : bool :=
  startsWith s p ||
  match s with
  | [] => false
  | _ :: s' => includes s' p
  end.

(** ASCII letters folded to lower case, other code units unchanged. *)
Definition lower_ascii (c : N) : N :=
  if ((0x41 <=? c) && (c <=? 0x5A))%N then (c + 0x20)%N else c.

Definition includes_ignoring_case (s p : t) : bool :=
  includes (map lower_ascii s) (map lower_ascii p).

Definition eqb (a b : t) : bool :=
  if list_eq_dec N.eq_dec a b then true else false.

End JsString.

Abbreviation jsstring := JsString.t.
Abbreviation lit := JsString.lit.

(** ** Numbers

    The numbers of the script are IEEE binary64 doubles. *)

Module Number.

(** The Number an integer literal denotes: the double nearest to it. *)
Definition of_Z (n : Z) : float := SF2Prim (binary_normalize prec emax n 0 false).

(** The double nearest to the fraction [num / den] of two positive
    integers, ties to even. *)
Definition nearest (num den : positive) : spec_float :=
  SFdiv prec emax (S754_finite false num 0) (S754_finite false den 0).

Definition same (x y : spec_float) : bool :=
  match x, y with
  | S754_finite s1 m1 e1, S754_finite s2 m2 e2 =>
      Bool.eqb s1 s2 && (m1 =? m2)%positive && (e1 =? e2)%Z
  | S754_zero s1, S754_zero s2 => Bool.eqb s1 s2
  | S754_infinity s1, S754_infinity s2 => Bool.eqb s1 s2
  | S754_nan, S754_nan => true
  | _, _ => false
  end.

Definition digit (d : N) : N := (0x30 + d)%N.

Fixpoint digits (fuel : nat) (n : N) (acc : jsstring) : jsstring :=
  match fuel with
  | O => acc
  | S fuel' =>
      let acc' := digit (n mod 10) :: acc in
      if (n <? 10)%N then acc' else digits fuel' (n / 10)%N acc'
  end.

(** Decimal numeral of a natural number. *)
Definition decimal (n : N) : jsstring := digits (S (N.to_nat (N.log2 n))) n [].

(** [10 ^ n] as a fraction, for any integer [n]. *)
Definition pow10_num (n : Z) : Z := if (0 <=? n)%Z then (10 ^ n)%Z else 1%Z.
Definition pow10_den (n : Z) : Z := if (0 <=? n)%Z then 1%Z else (10 ^ (- n))%Z.

(** The least [n] from [start] on with [num / den < 10 ^ n]. *)
Fixpoint position (fuel : nat) (num den : Z) (start : Z) : Z :=
  match fuel with
  | O => start
  | S fuel' =>
      if (num * pow10_den start <? pow10_num start * den)%Z then start
      else position fuel' num den (start + 1)%Z
  end.

(** Among the numerals [s * 10 ^ (n - k)] that read back as the double
    [x], the one nearest to [num / den], the exact value of [x]; of two
    equally near, the even one. *)
Definition candidate (x : spec_float) (num den n k : Z) : option Z :=
  let ynum := (num * pow10_num (k - n))%Z in
  let yden := (den * pow10_den (k - n))%Z in
  let lo := (ynum / yden)%Z in
  let hi := (lo + 1)%Z in
  let reads s :=
    (0 <? s)%Z
    && same (nearest (Z.to_pos (s * pow10_num (n - k)))
                     (Z.to_pos (pow10_den (n - k)))) x in
  match reads lo, reads hi with
  | true, true =>
      match (2 * ynum ?= (2 * lo + 1) * yden)%Z with
      | Lt => Some lo
      | Gt => Some hi
      | Eq => Some (if Z.even lo then lo else hi)
      end
  | true, false => Some lo
  | false, true => Some hi
  | false, false => None
  end.

(** The shortest such numeral: the number [k] of digits grows until a
    candidate reads back as [x]; seventeen digits always do. *)
Fixpoint shortest (fuel : nat) (x : spec_float) (num den n k : Z) : Z * Z :=
  match fuel with
  | O => ((num * pow10_num (k - n)) / (den * pow10_den (k - n)), k)%Z
  | S fuel' =>
      match candidate x num den n k with
      | Some s => (s, k)
      | None => shortest fuel' x num den n (k + 1)%Z
      end
  end.

Fixpoint strip_zeros (rev_digits : jsstring) : jsstring :=
  match rev_digits with
  | 0x30%N :: rest => match rest with [] => rev_digits | _ => strip_zeros rest end
  | _ => rev_digits
  end.

Definition zeros (n : Z) : jsstring := repeat 0x30%N (Z.to_nat n).

(** The text of a positive finite double [m * 2 ^ e], as
    [Number::toString] writes it in radix 10: the shortest digits that
    read back as the double, in positional notation when the decimal
    point falls within 21 digits before or 6 after the first digit, in
    exponent notation otherwise. *)
Definition positive_text (m : positive) (e : Z) : jsstring :=
  let x := S754_finite false m e in
  let num := if (0 <=? e)%Z then (Zpos m * 2 ^ e)%Z else Zpos m in
  let den := if (0 <=? e)%Z then 1%Z else (2 ^ (- e))%Z in
  let bits := (Zpos (digits2_pos m) + e)%Z in
  let n := position 6 num den ((bits * 1233) / 4096 - 2)%Z in
  let (s, k0) := shortest 17 x num den n 1 in
  let all := decimal (Z.to_N s) in
  let n := (n - k0 + Z.of_nat (List.length all))%Z in
  let ds := rev (strip_zeros (rev all)) in
  let k := Z.of_nat (List.length ds) in
  if ((k <=? n) && (n <=? 21))%Z then ds ++ zeros (n - k)
  else if ((0 <? n) && (n <=? 21))%Z then
    firstn (Z.to_nat n) ds ++ lit "." ++ skipn (Z.to_nat n) ds
  else if ((-6 <? n) && (n <=? 0))%Z then lit "0." ++ zeros (- n) ++ ds
  else
    let exponent :=
      lit "e" ++ (if (n - 1 <? 0)%Z then lit "-" else lit "+")
      ++ decimal (Z.abs_N (n - 1)) in
    match ds with
    | [d] => [d] ++ exponent
    | d :: rest => [d] ++ lit "." ++ rest ++ exponent
    | [] => exponent
    end.

(** [Number::toString(x)], radix 10: what [String(x)] and the
    [textContent] setter give for a number. *)
Definition toString (x : float) : jsstring :=
  match Prim2SF x with
  | S754_nan => lit "NaN"
  | S754_zero _ => lit "0"
  | S754_infinity s => if s then lit "-Infinity" else lit "Infinity"
  | S754_finite s m e =>
      if s then lit "-" ++ positive_text m e else positive_text m e
  end.

(** *** [StringToNumber]

    The number a string converts to: white space around the numeral is
    dropped and the empty string is [+0]; the numeral is [Infinity] or a
    decimal literal, with an optional sign, or an unsigned binary, octal
    or hexadecimal integer; anything else is [NaN]. *)

Definition digit_value (radix : N) (c : N) : option Z :=
  let v :=
    if ((0x30 <=? c) && (c <=? 0x39))%N then Some (c - 0x30)%N
    else if ((0x61 <=? c) && (c <=? 0x66))%N then Some (c - 0x61 + 10)%N
    else if ((0x41 <=? c) && (c <=? 0x46))%N then Some (c - 0x41 + 10)%N
    else None in
  match v with
  | Some d => if (d <? radix)%N then Some (Z.of_N d) else None
  | None => None
  end.

(** The longest run of digits of the radix at the head of [s]: its value
    after [acc], the number of digits, and what follows. *)
Fixpoint read_digits (radix : N) (s : jsstring) (acc : Z) (count : Z)
  : Z * Z * jsstring :=
  match s with
  | c :: rest =>
      match digit_value radix c with
      | Some d => read_digits radix rest (acc * Z.of_N radix + d)%Z (count + 1)%Z
      | None => (acc, count, s)
      end
  | [] => (acc, count, [])
  end.

(** The Number nearest to [num * 10 ^ e], a zero of the given sign when
    [num] is 0. *)
Definition scaled (negative : bool) (num e : Z) : float :=
  let x :=
    if (num =? 0)%Z then S754_zero false
    else nearest (Z.to_pos (num * pow10_num e)) (Z.to_pos (pow10_den e)) in
  if negative then SF2Prim (SFopp x) else SF2Prim x.

(** [ExponentPart], optional: the exponent and what follows; [None] when
    an exponent indicator is not followed by digits. *)
Definition exponent (s : jsstring) : option (Z * jsstring) :=
  match s with
  | c :: rest =>
      if ((c =? 0x65) || (c =? 0x45))%N then
        let '(neg, rest') :=
          match rest with
          | 0x2B%N :: r => (false, r)
          | 0x2D%N :: r => (true, r)
          | _ => (false, rest)
          end in
        let '(v, n, rest'') := read_digits 10 rest' 0 0 in
        if (n =? 0)%Z then None else Some (if neg then (- v)%Z else v, rest'')
      else Some (0%Z, s)
  | [] => Some (0%Z, [])
  end.

(** [StrUnsignedDecimalLiteral] other than [Infinity]: digits, with an
    optional point among or around them, and an optional exponent. *)
Definition unsigned_decimal (negative : bool) (s : jsstring) : float :=
  let '(a, n1, rest) := read_digits 10 s 0 0 in
  let '(b, n2, rest') :=
    match rest with
    | 0x2E%N :: r => read_digits 10 r a 0
    | _ => (a, 0%Z, rest)
    end in
  if (n1 + n2 =? 0)%Z then nan
  else
    match exponent rest' with
    | Some (e, []) => scaled negative b (e - n2)
    | _ => nan
    end.

Definition non_decimal (radix : N) (s : jsstring) : float :=
  let '(v, n, rest) := read_digits radix s 0 0 in
  match rest with
  | [] => if (n =? 0)%Z then nan else scaled false v 0
  | _ => nan
  end.

Definition of_string (text : jsstring) : float :=
  let s := JsString.trim text in
  match s with
  | [] => 0%float
  | 0x30%N :: 0x78%N :: r | 0x30%N :: 0x58%N :: r => non_decimal 16 r
  | 0x30%N :: 0x6F%N :: r | 0x30%N :: 0x4F%N :: r => non_decimal 8 r
  | 0x30%N :: 0x62%N :: r | 0x30%N :: 0x42%N :: r => non_decimal 2 r
  | c :: r =>
      let '(negative, u) :=
        if (c =? 0x2D)%N then (true, r)
        else if (c =? 0x2B)%N then (false, r)
        else (false, s) in
      if JsString.eqb u (lit "Infinity")
      then (if negative then neg_infinity else infinity)
      else unsigned_decimal negative u
  end.

End Number.

Module Math.

(** [Math.min(a, b)]: [NaN] when an argument is [NaN]; [-0] counts as
    smaller than [+0]. *)
Definition min (a b : float) : float :=
  if is_nan a || is_nan b then nan
  else if is_zero a && is_zero b then (if get_sign a then a else b)
  else if (b <? a)%float then b else a.

(** [Math.round(x)]: [x] itself when it is [NaN], an infinity, a zero or
    an integer; otherwise the integer nearest to [x], halves going up,
    with [-0] for the numbers from [-0.5] up to [-0]. *)
Definition round (x : float) : float :=
  match Prim2SF x with
  | S754_finite s m e =>
      if (0 <=? e)%Z then x
      else
        let n := if s then Zneg m else Zpos m in
        let r := ((2 * n + 2 ^ (- e)) / 2 ^ (1 - e))%Z in
        if (r =? 0)%Z then (if s then neg_zero else zero)
        else Number.of_Z r
  | _ => x
  end.

End Math.

(** ** Values and completions *)

(** The values an argument of [validateInputs] can be: a text, or a
    missing one ([undefined] or [null]). *)
Inductive jsvalue :=
| Undefined
| Null
| Str (s : jsstring).

(** A thrown [Error] object; only its [message] is observed.  The
    messages of the [TypeError]s the engine raises are given in V8's
    wording; no property depends on them. *)
Record error := Error { error_message : jsstring }.

(** Completion of a statement or call: a normal value or a thrown error. *)
Inductive completion (A : Type) :=
| Normal (a : A)
| Throw (e : error).
Arguments Normal {A} a.
Arguments Throw {A} e.

Definition bind {A B} (c : completion A) (k : A -> completion B) : completion B :=
  match c with
  | Normal a => k a
  | Throw e => Throw e
  end.

Notation "'let!' x ':=' c 'in' k" := (bind c (fun x => k))
  (at level 10, x name, c at level 100, k at level 200).

(** JavaScript truthiness ([!v] is its negation). *)
Definition truthy (v : jsvalue) : bool :=
  match v with
  | Str s => negb (JsString.length s =? 0)
  | Undefined | Null => false
  end.

(** [v.trim().length]; a [TypeError] when [v] is [undefined] or [null]. *)
Definition trim_length (v : jsvalue) : completion nat :=
  match v with
  | Str s => Normal (JsString.length (JsString.trim s))
  | Undefined =>
      Throw (Error (lit "Cannot read properties of undefined (reading 'trim')"))
  | Null =>
      Throw (Error (lit "Cannot read properties of null (reading 'trim')"))
  end.

(** ** Input validation *)

(** The object [validateInputs] returns: [{ valid, message }], with
    [message] absent when [valid] is true. *)
Record validation := { valid : bool; message : option jsstring }.

Definition msg_enter_job : jsstring := lit "Please enter a job description".
Definition msg_enter_resume : jsstring := lit "Please enter a resume".
Definition msg_job_short : jsstring :=
  lit "Job description is too short. Please provide at least 50 characters.".
Definition msg_resume_short : jsstring :=
  lit "Resume is too short. Please provide at least 50 characters.".

Definition invalid (m : jsstring) : validation :=
  {| valid := false; message := Some m |}.
Definition ok_validation : validation :=
  {| valid := true; message := None |}.

(** [!v || v.trim().length === 0], with the short circuit of [||]. *)
Definition missing_or_blank (v : jsvalue) : completion bool :=
  if negb (truthy v) then Normal true
  else let! n := trim_length v in Normal (n =? 0).

Definition validateInputs (jobDesc resume : jsvalue) : completion validation :=
  let! c1 := missing_or_blank jobDesc in
  if c1 then Normal (invalid msg_enter_job) else
  let! c2 := missing_or_blank resume in
  if c2 then Normal (invalid msg_enter_resume) else
  let! n1 := trim_length jobDesc in
  if n1 <? 50 then Normal (invalid msg_job_short) else
  let! n2 := trim_length resume in
  if n2 <? 50 then Normal (invalid msg_resume_short) else
  Normal ok_validation.

(** ** Data received from the server

    The value [response.json()] resolves to.  Numbers are the integers
    the scores of the service are; [JNum n] is the number the literal
    [n] is read as, the double nearest to [n]. *)

Unset Elimination Schemes.
Inductive json :=
| JNull
| JBool (b : bool)
| JNum (n : Z)
| JStr (s : jsstring)
| JArr (items : list json)
| JObj (fields : list (jsstring * json)).
Set Elimination Schemes.

Module Json.

Fixpoint lookup (k : jsstring) (fields : list (jsstring * json)) : option json :=
  match fields with
  | [] => None
  | (k', v) :: rest => if JsString.eqb k k' then Some v else lookup k rest
  end.

(** Property read [d.k] for the keys of the script (none of them is a
    built-in property): [None] is [undefined]; reading a property of
    [null] throws. *)
Definition get (d : json) (k : string) : completion (option json) :=
  match d with
  | JNull =>
      Throw (Error (lit "Cannot read properties of null (reading '"
                    ++ lit k ++ lit "')"))
  | JObj fields => Normal (lookup (lit k) fields)
  | JBool _ | JNum _ | JStr _ | JArr _ => Normal None
  end.

Definition truthy (v : option json) : bool :=
  match v with
  | None | Some JNull => false
  | Some (JBool b) => b
  | Some (JNum n) => negb (n =? 0)%Z
  | Some (JStr s) => negb (JsString.length s =? 0)
  | Some (JArr _) | Some (JObj _) => true
  end.

(** [String(n)] for the number an integer literal [n] is read as. *)
Definition of_Z (n : Z) : jsstring := Number.toString (Number.of_Z n).

Fixpoint join (sep : jsstring) (parts : list jsstring) : jsstring :=
  match parts with
  | [] => []
  | [x] => x
  | x :: rest => x ++ sep ++ join sep rest
  end.

(** [String(v)]: arrays join their elements with commas, [null]
    elements giving the empty string. *)
Fixpoint toString (v : json) : jsstring :=
  match v with
  | JNull => lit "null"
  | JBool true => lit "true"
  | JBool false => lit "false"
  | JNum n => of_Z n
  | JStr s => s
  | JArr items =>
      join (lit ",")
        (map (fun x => match x with JNull => [] | _ => toString x end) items)
  | JObj _ => lit "[object Object]"
  end.

(** Conversion done by the [textContent] setter: [null] and [undefined]
    give the empty string. *)
Definition toText (v : option json) : jsstring :=
  match v with
  | None | Some JNull => []
  | Some x => toString x
  end.

End Json.

(** ** The page *)

(** Elements the script looks up with [document.getElementById]. *)
Inductive id :=
| jobDescriptionTextarea | resumeTextarea | evaluateBtn
| loadingIndicator | errorMessage | resultsSection
| scoreValue | verdictBadge
| strengthsList | gapsList | reasonsForList | reasonsAgainstList
| suggestionsList.

Definition id_eq_dec (a b : id) : {a = b} + {a <> b}.
Proof. decide equality. Defined.

(** A node made by [document.createElement] and appended to a list. *)
Record node := { tagName : jsstring; nodeClass : list jsstring; nodeText : jsstring }.

(** The state of an element that the script reads or writes. *)
Record element := {
  textContent : jsstring;
  classList : list jsstring;
  children : list node;
  value : jsstring;
  disabled : bool;
  color : jsstring
}.

Definition page := id -> element.

Module ClassList.

Definition contains (tok : jsstring) (l : list jsstring) : bool :=
  existsb (JsString.eqb tok) l.

Definition add (tok : jsstring) (l : list jsstring) : list jsstring :=
  if contains tok l then l else l ++ [tok].

Definition remove (tok : jsstring) (l : list jsstring) : list jsstring :=
  filter (fun t => negb (JsString.eqb tok t)) l.

End ClassList.

Definition hidden (e : element) : bool :=
  ClassList.contains (lit "hidden") (classList e).

Definition visible (e : element) : bool := negb (hidden e).

Definition set_textContent (t : jsstring) (e : element) : element :=
  {| textContent := t; classList := classList e; children := [];
     value := value e; disabled := disabled e; color := color e |}.

Definition set_classList (l : list jsstring) (e : element) : element :=
  {| textContent := textContent e; classList := l; children := children e;
     value := value e; disabled := disabled e; color := color e |}.

Definition set_children (c : list node) (e : element) : element :=
  {| textContent := textContent e; classList := classList e; children := c;
     value := value e; disabled := disabled e; color := color e |}.

Definition set_value (v : jsstring) (e : element) : element :=
  {| textContent := textContent e; classList := classList e; children := children e;
     value := v; disabled := disabled e; color := color e |}.

Definition set_disabled (b : bool) (e : element) : element :=
  {| textContent := textContent e; classList := classList e; children := children e;
     value := value e; disabled := b; color := color e |}.

Definition set_color (c : jsstring) (e : element) : element :=
  {| textContent := textContent e; classList := classList e; children := children e;
     value := value e; disabled := disabled e; color := c |}.

Definition update (i : id) (f : element -> element) (p : page) : page :=
  fun j => if id_eq_dec i j then f (p j) else p j.

Definition classList_add (i : id) (tok : string) : page -> page :=
  update i (fun e => set_classList (ClassList.add (lit tok) (classList e)) e).

Definition classList_remove (i : id) (tok : string) : page -> page :=
  update i (fun e => set_classList (ClassList.remove (lit tok) (classList e)) e).

(** ** The world of a handler: page, network, console, timers *)

Record request := {
  url : jsstring;
  method : jsstring;
  headers : list (jsstring * jsstring);
  body : jsstring
}.

Inductive timer_job := RefreshAnimations | ScrollToResults.

(** Callbacks handed to the browser, to run after the handler returns. *)
Inductive task :=
| Frame (targetScore : option json) (startTime : float)
| Timer (delay : nat) (job : timer_job).

Record world := {
  dom : page;
  sent : list request;
  logged : list error;
  scheduled : list task;
  now : float
}.

(** Statements: a world transformer that may throw; changes made before
    a throw stay. *)
Definition M (A : Type) := world -> completion A * world.

Definition ret {A} (a : A) : M A := fun w => (Normal a, w).

Definition throw {A} (e : error) : M A := fun w => (Throw e, w).

Definition seq {A B} (c : M A) (k : A -> M B) : M B :=
  fun w =>
    match c w with
    | (Normal a, w') => k a w'
    | (Throw e, w') => (Throw e, w')
    end.

Notation "x <- c ;; k" := (seq c (fun x => k))
  (at level 61, c at next level, right associativity).
Notation "c ;; k" := (seq c (fun _ => k))
  (at level 61, right associativity).

Definition lift {A} (c : completion A) : M A := fun w => (c, w).

Definition on_page (f : page -> page) : M unit :=
  fun w => (Normal tt,
            {| dom := f (dom w); sent := sent w; logged := logged w;
               scheduled := scheduled w; now := now w |}).

Definition read {A} (f : page -> A) : M A := fun w => (Normal (f (dom w)), w).

Definition schedule (t : task) : M unit :=
  fun w => (Normal tt,
            {| dom := dom w; sent := sent w; logged := logged w;
               scheduled := scheduled w ++ [t]; now := now w |}).

Definition console_error (e : error) : M unit :=
  fun w => (Normal tt,
            {| dom := dom w; sent := sent w; logged := logged w ++ [e];
               scheduled := scheduled w; now := now w |}).

Definition fetch (r : request) : M unit :=
  fun w => (Normal tt,
            {| dom := dom w; sent := sent w ++ [r]; logged := logged w;
               scheduled := scheduled w; now := now w |}).

(** [try { body } catch (error) { handler } finally { final }]. *)
Definition try_catch_finally (body : M unit) (handler : error -> M unit)
    (final : M unit) : M unit :=
  fun w =>
    let (r, w1) :=
      match body w with
      | (Normal tt, w') => (Normal tt, w')
      | (Throw e, w') => handler e w'
      end in
    match final w1 with
    | (Normal tt, w2) => (r, w2)
    | (Throw e, w2) => (Throw e, w2)
    end.

(** ** Panels *)

Definition showError (message : jsstring) : M unit :=
  on_page (update errorMessage (set_textContent message)) ;;
  on_page (classList_remove errorMessage "hidden") ;;
  on_page (classList_add loadingIndicator "hidden") ;;
  on_page (classList_add resultsSection "hidden").

Definition hideError : M unit :=
  on_page (classList_add errorMessage "hidden").

Definition showLoading : M unit :=
  on_page (classList_remove loadingIndicator "hidden") ;;
  on_page (classList_add resultsSection "hidden") ;;
  hideError.

Definition hideLoading : M unit :=
  on_page (classList_add loadingIndicator "hidden").

(** ** Rendering the result *)

Definition clear_innerHTML (e : element) : element :=
  set_children [] (set_textContent [] e).

Definition appendChild (n : node) (e : element) : element :=
  set_children (children e ++ [n]) e.

(** [items.forEach(f)], [name] being the variable that holds [items]:
    only an array has [forEach]. *)
Definition forEach (name : string) (items : option json) (f : json -> M unit)
  : M unit :=
  match items with
  | Some (JArr l) => fold_right (fun item rest => f item ;; rest) (ret tt) l
  | None =>
      throw (Error (lit "Cannot read properties of undefined (reading 'forEach')"))
  | Some JNull =>
      throw (Error (lit "Cannot read properties of null (reading 'forEach')"))
  | Some _ => throw (Error (lit name ++ lit ".forEach is not a function"))
  end.

Definition createListItems (items : option json) (parentElement : id) : M unit :=
  on_page (update parentElement clear_innerHTML) ;;
  forEach "items" items (fun item =>
    let li := {| tagName := lit "li"; nodeClass := [];
                 nodeText := Json.toText (Some item) |} in
    on_page (update parentElement (appendChild li))).

Definition createSuggestionItems (suggestions : option json) (parentElement : id)
  : M unit :=
  on_page (update parentElement clear_innerHTML) ;;
  forEach "suggestions" suggestions (fun suggestion =>
    let div := {| tagName := lit "div"; nodeClass := [lit "suggestion-item"];
                  nodeText := Json.toText (Some suggestion) |} in
    on_page (update parentElement (appendChild div))).

(** The part of [animateScore] that runs inside the handler: the clock is
    read and the first frame requested.  The frames are [updateScore]
    below. *)
Definition animateScore (targetScore : option json) : M unit :=
  startTime <- (fun w => (Normal (now w), w)) ;;
  schedule (Frame targetScore startTime).

(** [v === 'text']. *)
Definition is_string (v : option json) (text : string) : bool :=
  match v with
  | Some (JStr s) => JsString.eqb s (lit text)
  | _ => false
  end.

Definition displayResults (data : json) : M unit :=
  match_score <- lift (Json.get data "match_score") ;;
  animateScore match_score ;;
  verdict <- lift (Json.get data "verdict") ;;
  on_page (update verdictBadge (set_textContent (Json.toText verdict))) ;;
  on_page (update verdictBadge (set_classList [lit "verdict-badge"])) ;;
  (if is_string verdict "Hire" then on_page (classList_add verdictBadge "hire")
   else if is_string verdict "Hold" then on_page (classList_add verdictBadge "hold")
   else if is_string verdict "Reject" then on_page (classList_add verdictBadge "reject")
   else ret tt) ;;
  strengths <- lift (Json.get data "strengths") ;;
  createListItems strengths strengthsList ;;
  gaps <- lift (Json.get data "gaps") ;;
  createListItems gaps gapsList ;;
  reasons_for <- lift (Json.get data "reasons_for") ;;
  createListItems reasons_for reasonsForList ;;
  reasons_against <- lift (Json.get data "reasons_against") ;;
  createListItems reasons_against reasonsAgainstList ;;
  improvement_suggestions <- lift (Json.get data "improvement_suggestions") ;;
  createSuggestionItems improvement_suggestions suggestionsList ;;
  hideLoading ;;
  on_page (classList_remove resultsSection "hidden") ;;
  schedule (Timer 100 RefreshAnimations) ;;
  schedule (Timer 300 ScrollToResults).

(** ** JSON text of the request *)

Module JsonText.

Definition hex_digit (d : N) : N :=
  if (d <? 10)%N then (0x30 + d)%N else (0x61 + (d - 10))%N.

(** [UnicodeEscape]: a backslash, [u], and four lower-case hex digits. *)
Definition unicode_escape (c : N) : jsstring :=
  [0x5C; 0x75;
   hex_digit (c / 4096 mod 16); hex_digit (c / 256 mod 16);
   hex_digit (c / 16 mod 16); hex_digit (c mod 16)]%N.

Definition is_leading_surrogate (c : N) : bool := ((0xD800 <=? c) && (c <=? 0xDBFF))%N.
Definition is_trailing_surrogate (c : N) : bool := ((0xDC00 <=? c) && (c <=? 0xDFFF))%N.

(** One code unit that is not part of a surrogate pair. *)
Definition quote_unit (c : N) : jsstring :=
  (if c =? 0x08 then [0x5C; 0x62]
   else if c =? 0x09 then [0x5C; 0x74]
   else if c =? 0x0A then [0x5C; 0x6E]
   else if c =? 0x0C then [0x5C; 0x66]
   else if c =? 0x0D then [0x5C; 0x72]
   else if c =? 0x22 then [0x5C; 0x22]
   else if c =? 0x5C then [0x5C; 0x5C]
   else if (c <? 0x20) || is_leading_surrogate c || is_trailing_surrogate c
        then unicode_escape c
   else [c])%N.

(** [QuoteJSONString] without the enclosing quotes: a surrogate pair is
    copied, everything else goes through [quote_unit]. *)
Fixpoint quote_units (s : jsstring) : jsstring :=
  match s with
  | [] => []
  | c :: rest =>
      match rest with
      | d :: rest' =>
          if is_leading_surrogate c && is_trailing_surrogate d
          then c :: d :: quote_units rest'
          else quote_unit c ++ quote_units rest
      | [] => quote_unit c
      end
  end.

Definition quote (s : jsstring) : jsstring :=
  [0x22%N] ++ quote_units s ++ [0x22%N].

Definition member (kv : string * jsstring) : jsstring :=
  quote (lit (fst kv)) ++ [0x3A%N] ++ quote (snd kv).

(** [JSON.stringify] of an object whose properties are strings. *)
Definition stringify (fields : list (string * jsstring)) : jsstring :=
  [0x7B%N] ++ Json.join [0x2C%N] (map member fields) ++ [0x7D%N].

End JsonText.

(** ** Reading the JSON text back

    What a JSON parser on the receiving side makes of the text of an
    object whose properties are strings: each string literal is read with
    its escapes decoded. *)

Module JsonRead.

Definition hex_value (c : N) : option N :=
  (if (0x30 <=? c) && (c <=? 0x39) then Some (c - 0x30)
   else if (0x61 <=? c) && (c <=? 0x66) then Some (c - 0x61 + 10)
   else if (0x41 <=? c) && (c <=? 0x46) then Some (c - 0x41 + 10)
   else None)%N.

Definition unescape (e : N) : option N :=
  (if e =? 0x22 then Some 0x22
   else if e =? 0x5C then Some 0x5C
   else if e =? 0x2F then Some 0x2F
   else if e =? 0x62 then Some 0x08
   else if e =? 0x66 then Some 0x0C
   else if e =? 0x6E then Some 0x0A
   else if e =? 0x72 then Some 0x0D
   else if e =? 0x74 then Some 0x09
   else None)%N.

Definition push (c : N) (r : option (jsstring * jsstring)) : option (jsstring * jsstring) :=
  match r with
  | Some (t, rest) => Some (c :: t, rest)
  | None => None
  end.

(** The characters of a string literal up to its closing quote, escapes
    decoded, and the text after the quote. *)
Fixpoint read_units (s : jsstring) : option (jsstring * jsstring) :=
  match s with
  | [] => None
  | c :: rest =>
      if (c =? 0x22)%N then Some ([], rest)
      else if (c =? 0x5C)%N then
        match rest with
        | [] => None
        | e :: rest1 =>
            if (e =? 0x75)%N then
              match rest1 with
              | h3 :: h2 :: h1 :: h0 :: rest2 =>
                  match hex_value h3, hex_value h2, hex_value h1, hex_value h0 with
                  | Some a, Some b, Some c', Some d =>
                      push (a * 4096 + b * 256 + c' * 16 + d)%N (read_units rest2)
                  | _, _, _, _ => None
                  end
              | _ => None
              end
            else
              match unescape e with
              | Some x => push x (read_units rest1)
              | None => None
              end
        end
      else if (c <? 0x20)%N then None
      else push c (read_units rest)
  end.

Definition read_string (s : jsstring) : option (jsstring * jsstring) :=
  match s with
  | c :: rest => if (c =? 0x22)%N then read_units rest else None
  | [] => None
  end.

(** The members [k:v] of an object up to its closing brace; [fuel]
    bounds their number. *)
Fixpoint read_members (fuel : nat) (s : jsstring)
  : option (list (jsstring * jsstring)) :=
  match fuel with
  | O => None
  | S fuel' =>
      match read_string s with
      | Some (k, colon :: s1) =>
          if (colon =? 0x3A)%N then
            match read_string s1 with
            | Some (v, sep :: s2) =>
                if (sep =? 0x7D)%N then
                  match s2 with
                  | [] => Some [(k, v)]
                  | _ :: _ => None
                  end
                else if (sep =? 0x2C)%N then
                  option_map (cons (k, v)) (read_members fuel' s2)
                else None
            | _ => None
            end
          else None
      | _ => None
      end
  end.

(** The properties of the object a text denotes, in order. *)
Definition parse (s : jsstring) : option (list (jsstring * jsstring)) :=
  match s with
  | open :: rest =>
      if (open =? 0x7B)%N then
        match rest with
        | [close] => if (close =? 0x7D)%N then Some [] else None
        | _ => read_members (List.length rest) rest
        end
      else None
  | [] => None
  end.

Definition decoded (kv : string * jsstring) : jsstring * jsstring :=
  (lit (fst kv), snd kv).

End JsonRead.

Import JsonRead.

(** ** The request cycle *)

(** What the awaited calls of [evaluateResume] give: the [fetch] promise
    rejects, or [response.json()] rejects, or a body is parsed. *)
Inductive reply :=
| FetchRejected (e : error)
| JsonRejected (ok : bool) (e : error)
| Responded (ok : bool) (data : json).

Definition evaluate_request (jobDescription resume : jsstring) : request :=
  {| url := lit "/evaluate";
     method := lit "POST";
     headers := [(lit "Content-Type", lit "application/json")];
     body := JsonText.stringify
               [("job_description"%string, jobDescription);
                ("resume"%string, resume)] |}.

(** [evaluateResume] up to its first [await]: [None] when it returned
    after a validation error, otherwise the request handed to [fetch]. *)
Definition evaluateResume_begin : M (option request) :=
  jobDescription <- read (fun p => value (p jobDescriptionTextarea)) ;;
  resume <- read (fun p => value (p resumeTextarea)) ;;
  validation <- lift (validateInputs (Str jobDescription) (Str resume)) ;;
  if negb (valid validation) then
    showError (match message validation with Some m => m | None => [] end) ;;
    ret None
  else
    showLoading ;;
    on_page (update evaluateBtn (set_disabled true)) ;;
    let r := evaluate_request jobDescription resume in
    fetch r ;;
    ret (Some r).

(** The statements of the [try] block after the [fetch] call. *)
Definition await_and_display (r : reply) : M unit :=
  match r with
  | FetchRejected e => throw e
  | JsonRejected _ e => throw e
  | Responded ok data =>
      if negb ok then
        err <- lift (Json.get data "error") ;;
        throw (Error (if Json.truthy err
                      then match err with Some x => Json.toString x | None => [] end
                      else lit "An error occurred during evaluation"))
      else displayResults data
  end.

Definition on_failure (error : error) : M unit :=
  console_error error ;;
  showError (if negb (JsString.length (error_message error) =? 0)
             then error_message error
             else lit "Failed to evaluate. Please check your connection and try again.").

(** The [finally] block. *)
Definition enable_button : M unit :=
  on_page (update evaluateBtn (set_disabled false)).

(** [evaluateResume] from the first [await] on. *)
Definition evaluateResume_resume (r : reply) : M unit :=
  try_catch_finally (await_and_display r) on_failure enable_button.

(** One execution of [evaluateResume], no other handler running while it
    awaits. *)
Definition evaluateResume (r : reply) : M unit :=
  pending <- evaluateResume_begin ;;
  match pending with
  | None => ret tt
  | Some _ => evaluateResume_resume r
  end.

(** ** Event listeners *)

Record key_event := { ctrlKey : bool; metaKey : bool; key : jsstring }.

(** The [click] listener of the button, up to the first [await] of the
    execution it starts; the browser dispatches no click on a disabled
    button. *)
Definition click : M (option request) :=
  fun w =>
    if disabled (dom w evaluateBtn) then (Normal None, w)
    else evaluateResume_begin w.

(** The [keydown] listener of the document, up to the first [await] of
    the execution it starts: Ctrl or Cmd with Enter calls
    [evaluateResume]. *)
Definition keydown (e : key_event) : M (option request) :=
  if (ctrlKey e || metaKey e) && JsString.eqb (key e) (lit "Enter")
  then evaluateResume_begin
  else ret None.

(** The [input] listener of a text area, after the user has replaced its
    content with [text]. *)
Definition input (i : id) (text : jsstring) : M unit :=
  on_page (update i (set_value text)) ;;
  hideError.

(** ** The score animation *)

Inductive verdict := Hire | Hold | Reject.

(** Modelled from the spec: the verdict thresholds of the report generator,
    which runs on the server and is not among the sources (score at least
    75 is Hire, at least 50 and below 75 is Hold, below 50 is Reject). *)
Definition verdict_of_score (score : float) : verdict :=
  if (75 <=? score)%float then Hire
  else if (50 <=? score)%float then Hold
  else Reject.

(** The three colours [updateScore] assigns, by the band they are used for. *)
Definition band_color (v : verdict) : jsstring :=
  match v with
  | Hire => lit "#10b981"
  | Hold => lit "#f59e0b"
  | Reject => lit "#ef4444"
  end.

(** [ToNumber] of the value of [data.match_score], which the
    multiplication in [updateScore] applies to [targetScore]: an array
    is converted through its string. *)
Definition ToNumber (v : option json) : float :=
  match v with
  | None => nan
  | Some JNull => 0%float
  | Some (JBool b) => if b then 1%float else 0%float
  | Some (JNum n) => Number.of_Z n
  | Some (JStr s) => Number.of_string s
  | Some (JArr items) => Number.of_string (Json.toString (JArr items))
  | Some (JObj _) => nan
  end.

Definition duration : float := 2000.

(** The precision of [Math.pow] is left to the engine, so the function is
    a parameter [Math_pow] of the animation; the language fixes some of
    its values, among them [Math.pow(+0, 3)], which is [+0]. *)
Definition easeOutCubic (Math_pow : float -> float -> float) (t : float) : float :=
  (1 - Math_pow (1 - t) 3)%float.

(** One call of [updateScore], at time [currentTime]; the boolean tells
    whether another frame was requested. *)
Definition updateScore (Math_pow : float -> float -> float)
    (targetScore startTime currentTime : float) (p : page) : page * bool :=
  let elapsed := (currentTime - startTime)%float in
  let progress := Math.min (elapsed / duration)%float 1%float in
  let easedProgress := easeOutCubic Math_pow progress in
  let currentScore := (easedProgress * targetScore)%float in
  let p1 :=
    update scoreValue
      (set_textContent (Number.toString (Math.round currentScore))) p in
  let p2 :=
    if (75 <=? currentScore)%float then
      update scoreValue (set_color (lit "#10b981")) p1
    else if (50 <=? currentScore)%float then
      update scoreValue (set_color (lit "#f59e0b")) p1
    else
      update scoreValue (set_color (lit "#ef4444")) p1 in
  (p2, (progress <? 1)%float).

(** One animation frame of the browser, at time [currentTime]: the
    callbacks requested with [requestAnimationFrame] are called in the
    order of the requests, and a callback that requests a frame again
    waits for the next one; timers are left alone. *)
Fixpoint animation_frame (Math_pow : float -> float -> float)
    (currentTime : float) (tasks : list task) (p : page) : list task * page :=
  match tasks with
  | [] => ([], p)
  | Frame targetScore startTime :: rest =>
      let (p1, again) :=
        updateScore Math_pow (ToNumber targetScore) startTime currentTime p in
      let (rest', p2) := animation_frame Math_pow currentTime rest p1 in
      (if again then Frame targetScore startTime :: rest' else rest', p2)
  | Timer delay job :: rest =>
      let (rest', p') := animation_frame Math_pow currentTime rest p in
      (Timer delay job :: rest', p')
  end.

(** The animation frames at the times the browser gives them. *)
Fixpoint animation_frames (Math_pow : float -> float -> float)
    (times : list float) (tasks : list task) (p : page) : list task * page :=
  match times with
  | [] => (tasks, p)
  | t :: rest =>
      let (tasks', p') := animation_frame Math_pow t tasks p in
      animation_frames Math_pow rest tasks' p'
  end.

(** ** The similarity engine *)

Module Similarity.

Inductive failure := DimensionMismatch | DegenerateVector.

(** Modelled from the spec: the dot product of two embedding vectors of
    the server's similarity engine, which is not among the sources;
    components are IEEE doubles, summed from the first on. *)
Definition dot (a b : list float) : float :=
  fold_left (fun acc xy => (acc + fst xy * snd xy)%float) (combine a b) 0%float.

(** Modelled from the spec: the magnitude of a vector, for the same
    missing engine. *)
Definition norm (a : list float) : float := PrimFloat.sqrt (dot a a).

(** Modelled from the spec: [cosine_similarity] of the server's similarity
    engine, which is not among the sources: dot(a,b) / (|a| * |b|), failing
    with [DimensionMismatch] when the lengths differ and with
    [DegenerateVector], without dividing, when a magnitude is zero. *)
Definition cosine_similarity (a b : list float) : failure + float :=
  if negb (List.length a =? List.length b) then inl DimensionMismatch
  else
    let na := norm a in
    let nb := norm b in
    if (na =? 0)%float || (nb =? 0)%float then inl DegenerateVector
    else inr (dot a b / (na * nb))%float.

(** Modelled from the spec: the number reported for a degenerate pair is 0
    (a dimension mismatch has no number). *)
Definition similarity_value (r : failure + float) : option float :=
  match r with
  | inr x => Some x
  | inl DegenerateVector => Some 0%float
  | inl DimensionMismatch => None
  end.

End Similarity.

(** ** The validation rule in the words of the specification *)

Inductive field := job_description | resume_field.

Inductive rejection :=
| MissingField (f : field)
| TooShort (f : field).

(** A field is missing or empty: absent, or nothing left after trimming. *)
Definition blank (v : jsvalue) : bool :=
  match v with
  | Str s => JsString.length (JsString.trim s) =? 0
  | Undefined | Null => true
  end.

Definition trimmed_length (v : jsvalue) : nat :=
  match v with
  | Str s => JsString.length (JsString.trim s)
  | Undefined | Null => 0
  end.

(** The four conditions in the order the specification lists them; the
    first that holds is the rejection. *)
Definition first_failure (jd rs : jsvalue) : option rejection :=
  if blank jd then Some (MissingField job_description)
  else if blank rs then Some (MissingField resume_field)
  else if trimmed_length jd <? 50 then Some (TooShort job_description)
  else if trimmed_length rs <? 50 then Some (TooShort resume_field)
  else None.

Definition rejection_message (r : rejection) : jsstring :=
  match r with
  | MissingField job_description => msg_enter_job
  | MissingField resume_field => msg_enter_resume
  | TooShort job_description => msg_job_short
  | TooShort resume_field => msg_resume_short
  end.

Definition rejected_field (r : rejection) : field :=
  match r with MissingField f | TooShort f => f end.

(** The name a message uses for a field. *)
Definition field_name (f : field) : jsstring :=
  match f with
  | job_description => lit "job description"
  | resume_field => lit "resume"
  end.

Definition verdict_for (r : option rejection) : validation :=
  match r with
  | Some r => invalid (rejection_message r)
  | None => ok_validation
  end.

(** ** Sample inputs *)

Definition spaces (n : nat) : jsstring := repeat 0x20%N n.
Definition letters (n : nat) : jsstring := repeat 0x61%N n.

Definition blank_element : element :=
  {| textContent := []; classList := []; children := []; value := [];
     disabled := false; color := [] |}.

(** A page whose two text areas hold [jd] and [rs], everything else empty
    and the button enabled. *)
Definition sample_page (jd rs : jsstring) : page :=
  fun i =>
    match i with
    | jobDescriptionTextarea => set_value jd blank_element
    | resumeTextarea => set_value rs blank_element
    | _ => blank_element
    end.

Definition sample_world (jd rs : jsstring) : world :=
  {| dom := sample_page jd rs; sent := []; logged := []; scheduled := []; now := 0%float |}.

Definition ctrl_enter : key_event :=
  {| ctrlKey := true; metaKey := false; key := lit "Enter" |}.

(** ** The controls of the page

    Vocabulary for the properties of the request cycle. *)

(** The controls the properties speak of: the [hidden] state of the three
    panels, the button, the requests issued and the errors logged so far. *)
Record controls := {
  error_classes : list jsstring;
  loading_classes : list jsstring;
  results_classes : list jsstring;
  button_disabled : bool;
  requests : list request;
  console_errors : list error
}.

Definition controls_of (w : world) : controls :=
  {| error_classes := classList (dom w errorMessage);
     loading_classes := classList (dom w loadingIndicator);
     results_classes := classList (dom w resultsSection);
     button_disabled := disabled (dom w evaluateBtn);
     requests := sent w;
     console_errors := logged w |}.

(** A statement that leaves the controls alone, however it completes. *)
Definition quiet {A} (c : M A) : Prop :=
  forall w, controls_of (snd (c w)) = controls_of w.

(** An element update that touches neither classes nor [disabled]. *)
Definition cosmetic (f : element -> element) : Prop :=
  forall e, classList (f e) = classList e /\ disabled (f e) = disabled e.

(** The controls after [hideLoading] and the reveal of the results. *)
Definition revealed (c : controls) : controls :=
  {| error_classes := error_classes c;
     loading_classes := ClassList.add (lit "hidden") (loading_classes c);
     results_classes := ClassList.remove (lit "hidden") (results_classes c);
     button_disabled := button_disabled c;
     requests := requests c;
     console_errors := console_errors c |}.

(** The controls after [showError]. *)
Definition failed (c : controls) : controls :=
  {| error_classes := ClassList.remove (lit "hidden") (error_classes c);
     loading_classes := ClassList.add (lit "hidden") (loading_classes c);
     results_classes := ClassList.add (lit "hidden") (results_classes c);
     button_disabled := button_disabled c;
     requests := requests c;
     console_errors := console_errors c |}.

(** The controls once the handler has validated the input, shown the
    loading indicator, disabled the button and called [fetch]. *)
Definition submitted (r : request) (c : controls) : controls :=
  {| error_classes := ClassList.add (lit "hidden") (error_classes c);
     loading_classes := ClassList.remove (lit "hidden") (loading_classes c);
     results_classes := ClassList.add (lit "hidden") (results_classes c);
     button_disabled := true;
     requests := requests c ++ [r];
     console_errors := console_errors c |}.

(** The controls after [console.error]. *)
Definition noted (e : error) (c : controls) : controls :=
  {| error_classes := error_classes c;
     loading_classes := loading_classes c;
     results_classes := results_classes c;
     button_disabled := button_disabled c;
     requests := requests c;
     console_errors := console_errors c ++ [e] |}.

Definition enabled (c : controls) : controls :=
  {| error_classes := error_classes c;
     loading_classes := loading_classes c;
     results_classes := results_classes c;
     button_disabled := false;
     requests := requests c;
     console_errors := console_errors c |}.

(** Hoare triples over the controls: from controls [c0], a normal
    completion ends in controls [Q], a throw in controls [E]. *)
Definition runs {A} (c0 : controls) (c : M A) (Q E : controls) : Prop :=
  forall w, controls_of w = c0 ->
    match c w with
    | (Normal _, w') => controls_of w' = Q
    | (Throw _, w') => controls_of w' = E
    end.

Definition jd_of (w : world) : jsstring := value (dom w jobDescriptionTextarea).
Definition rs_of (w : world) : jsstring := value (dom w resumeTextarea).

Definition shown_message (e : error) : jsstring :=
  if negb (JsString.length (error_message e) =? 0) then error_message e
  else lit "Failed to evaluate. Please check your connection and try again.".

(** A reply that is not a parsed body with an ok status. *)
Definition reply_ok (r : reply) : bool :=
  match r with
  | Responded true _ => true
  | _ => false
  end.

(** The name of a field as it starts a sentence. *)
Definition capitalised (f : field) : jsstring :=
  match f with
  | job_description => lit "Job description"
  | resume_field => lit "Resume"
  end.

(** ** An overlapping second execution *)

(** A complete response of the service. *)
Definition sample_result : json :=
  JObj [(lit "match_score", JNum 82);
        (lit "verdict", JStr (lit "Hire"));
        (lit "strengths", JArr [JStr (lit "python")]);
        (lit "gaps", JArr []);
        (lit "reasons_for", JArr [JStr (lit "Strong overlap")]);
        (lit "reasons_against", JArr []);
        (lit "improvement_suggestions", JArr [JStr (lit "Add metrics")])].

(** The state of the page while a first execution, started by a click
    with two valid texts, awaits its response. *)
Definition first_run_awaiting : world :=
  snd (click (sample_world (letters 50) (letters 50))).

(** The user then empties the resume. *)
Definition resume_emptied : world :=
  snd (input resumeTextarea [] first_run_awaiting).

(** Ctrl+Enter: the [keydown] listener calls [evaluateResume] whatever
    the state of the button; this second execution ends at validation. *)
Definition second_run_done : world :=
  snd (keydown ctrl_enter resume_emptied).

(** The response of the first execution arrives. *)
Definition first_run_done : world :=
  snd (evaluateResume_resume (Responded true sample_result) second_run_done).

(** ** The theme

    [applyTheme], [initTheme] and the listener of the theme toggle.  They
    touch the classes of [document.body], the toggle button when the page
    has one, the [localStorage] entry of the theme, and the
    [prefers-color-scheme] media query; storage access is taken to be
    permitted. *)

Module Storage.

Definition t := list (jsstring * jsstring).

Fixpoint getItem (k : jsstring) (st : t) : option jsstring :=
  match st with
  | [] => None
  | (k', v) :: rest => if JsString.eqb k k' then Some v else getItem k rest
  end.

Fixpoint setItem (k v : jsstring) (st : t) : t :=
  match st with
  | [] => [(k, v)]
  | (k', v') :: rest =>
      if JsString.eqb k k' then (k, v) :: rest else (k', v') :: setItem k v rest
  end.

End Storage.

Record toggle_button := { toggle_text : jsstring; aria_pressed : option jsstring }.

(** [matchMedia] is [None] where the browser has no [window.matchMedia],
    otherwise whether [(prefers-color-scheme: dark)] matches. *)
Record theme_world := {
  body_classes : list jsstring;
  themeToggle : option toggle_button;
  localStorage : Storage.t;
  matchMedia : option bool
}.

Definition THEME_STORAGE_KEY : jsstring := lit "rjd-theme".

(** [classList.toggle(tok, force)]. *)
Definition classList_toggle (tok : jsstring) (force : bool) (l : list jsstring)
  : list jsstring :=
  if force then ClassList.add tok l else ClassList.remove tok l.

Definition applyTheme (theme : jsstring) (t : theme_world) : theme_world :=
  let isDark := JsString.eqb theme (lit "dark") in
  {| body_classes := classList_toggle (lit "dark") isDark (body_classes t);
     themeToggle :=
       match themeToggle t with
       | Some _ =>
           Some {| toggle_text := if isDark then lit "Light mode" else lit "Dark mode";
                   aria_pressed := Some (if isDark then lit "true" else lit "false") |}
       | None => None
       end;
     localStorage := localStorage t;
     matchMedia := matchMedia t |}.

Definition initTheme (t : theme_world) : theme_world :=
  let storedTheme := Storage.getItem THEME_STORAGE_KEY (localStorage t) in
  let prefersDark := match matchMedia t with Some b => b | None => false end in
  let initialTheme :=
    match storedTheme with
    | Some s => if negb (JsString.length s =? 0) then s
                else if prefersDark then lit "dark" else lit "light"
    | None => if prefersDark then lit "dark" else lit "light"
    end in
  applyTheme initialTheme t.

(** The [click] listener of the theme toggle; it is registered only when
    the page has the toggle. *)
Definition toggle_click (t : theme_world) : theme_world :=
  match themeToggle t with
  | None => t
  | Some _ =>
      let nextTheme :=
        if ClassList.contains (lit "dark") (body_classes t)
        then lit "light" else lit "dark" in
      applyTheme nextTheme
        {| body_classes := body_classes t;
           themeToggle := themeToggle t;
           localStorage := Storage.setItem THEME_STORAGE_KEY nextTheme (localStorage t);
           matchMedia := matchMedia t |}
  end.

Definition dark (t : theme_world) : bool :=
  ClassList.contains (lit "dark") (body_classes t).

(** ** Vocabulary for the rendering and the frames *)

Definition is_frame (t : task) : bool :=
  match t with
  | Frame _ _ => true
  | Timer _ _ => false
  end.

(** An animation is running: a frame callback waits for the next frame. *)
Definition animating (tasks : list task) : bool := existsb is_frame tasks.

(** The frame at [currentTime] is the last one of an animation started at
    [startTime]: the share of the duration that has elapsed, as
    [updateScore] computes it, has reached 1. *)
Definition last_frame (startTime currentTime : float) : bool :=
  (1 <=? (currentTime - startTime) / duration)%float.

(** A zero or a finite double, in the representation of the IEEE
    specification. *)
Definition finite_SF (x : spec_float) : Prop :=
  match x with
  | S754_zero _ | S754_finite _ _ _ => True
  | S754_infinity _ | S754_nan => False
  end.

(** A statement that requests no animation frame: what it hands to the
    browser are timers. *)
Definition frameless {A} (c : M A) : Prop :=
  forall w, exists timers,
    scheduled (snd (c w)) = scheduled w ++ timers /\ animating timers = false.

(** In the sample runs the cube is two multiplications. *)
Definition cube (base exponent : float) : float := (base * base * base)%float.

Definition li_of (item : json) : node :=
  {| tagName := lit "li"; nodeClass := []; nodeText := Json.toText (Some item) |}.

Definition div_of (suggestion : json) : node :=
  {| tagName := lit "div"; nodeClass := [lit "suggestion-item"];
     nodeText := Json.toText (Some suggestion) |}.

(** The page after a list element was emptied and given one node per
    item. *)
Definition list_page (parent : id) (mk : json -> node) (items : list json) (p : page)
  : page :=
  fold_left (fun q item => update parent (appendChild (mk item)) q) items
    (update parent clear_innerHTML p).

Definition paint (f : page -> page) (w : world) : world := snd (on_page f w).

Definition is_array (v : option json) : bool :=
  match v with
  | Some (JArr _) => true
  | _ => false
  end.

Definition array_items (v : option json) : list json :=
  match v with
  | Some (JArr l) => l
  | _ => []
  end.

Definition property (data : json) (k : string) : option json :=
  match data with
  | JObj fields => Json.lookup (lit k) fields
  | _ => None
  end.

(** A body [displayResults] can render: an object whose five list
    properties are arrays. *)
Definition renderable (data : json) : bool :=
  match data with
  | JObj _ =>
      is_array (property data "strengths") && is_array (property data "gaps")
      && is_array (property data "reasons_for")
      && is_array (property data "reasons_against")
      && is_array (property data "improvement_suggestions")
  | _ => false
  end.

Definition badge_classes (verdict : option json) : list jsstring :=
  if is_string verdict "Hire" then [lit "verdict-badge"; lit "hire"]
  else if is_string verdict "Hold" then [lit "verdict-badge"; lit "hold"]
  else if is_string verdict "Reject" then [lit "verdict-badge"; lit "reject"]
  else [lit "verdict-badge"].

(** A statement that leaves what the user typed alone. *)
Definition keeps_input {A} (c : M A) : Prop :=
  forall w i, value (dom (snd (c w)) i) = value (dom w i).

Definition white (s : jsstring) : Prop :=
  Forall (fun c => JsString.is_white_space c = true) s.

(** The statements of [displayResults] on the verdict badge. *)
Definition badge_page (verdict : option json) (p : page) : page :=
  let p1 := update verdictBadge (set_classList [lit "verdict-badge"])
              (update verdictBadge (set_textContent (Json.toText verdict)) p) in
  if is_string verdict "Hire" then classList_add verdictBadge "hire" p1
  else if is_string verdict "Hold" then classList_add verdictBadge "hold" p1
  else if is_string verdict "Reject" then classList_add verdictBadge "reject" p1
  else p1.

(** What a renderable body leaves on the page. *)
Definition shows (data : json) (w w' : world) : Prop :=
  children (dom w' strengthsList) = map li_of (array_items (property data "strengths"))
  /\ children (dom w' gapsList) = map li_of (array_items (property data "gaps"))
  /\ children (dom w' reasonsForList)
     = map li_of (array_items (property data "reasons_for"))
  /\ children (dom w' reasonsAgainstList)
     = map li_of (array_items (property data "reasons_against"))
  /\ children (dom w' suggestionsList)
     = map div_of (array_items (property data "improvement_suggestions"))
  /\ textContent (dom w' verdictBadge) = Json.toText (property data "verdict")
  /\ classList (dom w' verdictBadge) = badge_classes (property data "verdict")
  /\ scheduled w'
     = scheduled w ++ [Frame (property data "match_score") (now w);
                       Timer 100 RefreshAnimations; Timer 300 ScrollToResults].

Definition sample_theme : theme_world :=
  {| body_classes := [lit "page"];
     themeToggle := Some {| toggle_text := lit "Dark mode"; aria_pressed := None |};
     localStorage := [(lit "other", lit "1")];
     matchMedia := Some true |}.

(** * Properties *)

(** ** Sample runs *)

Example trim_sample :
  JsString.trim ([0x09; 0x20; 0xA0]%N ++ lit "a b" ++ [0x0A; 0x3000; 0xFEFF]%N)
  = lit "a b".
Proof. reflexivity. Qed.

Example validateInputs_samples :
  validateInputs Undefined (Str (letters 60)) = Normal (invalid msg_enter_job)
  /\ validateInputs (Str (spaces 7)) (Str (letters 60))
     = Normal (invalid msg_enter_job)
  /\ validateInputs (Str (letters 60)) Null = Normal (invalid msg_enter_resume)
  /\ validateInputs (Str (spaces 3 ++ letters 49 ++ spaces 2)) (Str (letters 50))
     = Normal (invalid msg_job_short)
  /\ validateInputs (Str (letters 50)) (Str (letters 49))
     = Normal (invalid msg_resume_short)
  /\ validateInputs (Str (letters 50)) (Str (spaces 1 ++ letters 50))
     = Normal ok_validation.
Proof. repeat split. Qed.

Example toString_samples :
  Json.toString (JNum (-120)) = lit "-120"
  /\ Json.toString (JNum 0) = lit "0"
  /\ Json.toString (JArr [JNum 7; JNull; JStr (lit "a"); JBool true])
     = lit "7,,a,true"
  /\ Json.toString (JObj []) = lit "[object Object]".
Proof. repeat split. Qed.

Example quote_sample :
  JsonText.quote (lit "a" ++ [0x22; 0x0A; 0x5C; 0x01; 0xD83D; 0xDE00; 0xDC00]%N)
  = [0x22]%N ++ lit "a" ++ [0x5C; 0x22]%N ++ lit "\n" ++ [0x5C; 0x5C]%N
    ++ lit "\u0001" ++ [0xD83D; 0xDE00]%N ++ lit "\udc00" ++ [0x22]%N.
Proof. reflexivity. Qed.

Example displayResults_sample :
  let w := snd (displayResults sample_result (sample_world [] [])) in
  textContent (dom w verdictBadge) = lit "Hire"
  /\ classList (dom w verdictBadge) = [lit "verdict-badge"; lit "hire"]
  /\ map nodeText (children (dom w strengthsList)) = [lit "python"]
  /\ map nodeClass (children (dom w suggestionsList)) = [[lit "suggestion-item"]]
  /\ visible (dom w resultsSection) = true
  /\ scheduled w = [Frame (Some (JNum 82)) 0%float; Timer 100 RefreshAnimations;
                     Timer 300 ScrollToResults].
Proof. repeat split. Qed.

Example malformed_result_sample :
  let data := JObj [(lit "match_score", JNum 40); (lit "verdict", JStr (lit "Reject"));
                    (lit "strengths", JStr (lit "none"))] in
  let w := snd (evaluateResume (Responded true data)
                  (sample_world (letters 50) (letters 50))) in
  textContent (dom w errorMessage) = lit "items.forEach is not a function"
  /\ visible (dom w errorMessage) = true
  /\ hidden (dom w resultsSection) = true
  /\ disabled (dom w evaluateBtn) = false.
Proof. repeat split. Qed.

Example number_text_samples :
  map Number.toString [82; 0.5; -120; 1e21; 1152921504606846976; 0 / 0]%float
  = [lit "82"; lit "0.5"; lit "-120"; lit "1e+21"; lit "1152921504606847000";
     lit "NaN"]
  /\ map Math.round [61.5; -0.5; 2.4; -2.5]%float = [62; -0; 2; -2]%float
  /\ Math.min 0.25 1 = 0.25%float /\ Math.min 3 1 = 1%float.
Proof. vm_compute. repeat split. Qed.

Example animation_frames_sample :
  let started := [Frame (Some (JNum 62)) 100%float] in
  let shown (r : list task * page) :=
    (fst r, textContent (snd r scoreValue), color (snd r scoreValue)) in
  shown (animation_frames cube [116; 1100; 2100]%float started (sample_page [] []))
  = ([], lit "62", lit "#f59e0b")
  /\ shown (animation_frames cube [116; 1100]%float started (sample_page [] []))
     = (started, lit "54", lit "#f59e0b")
  /\ shown (animation_frames cube [2100]%float [Frame (Some (JStr (lit " 7e1 "))) 100%float]
              (sample_page [] []))
     = ([], lit "70", lit "#f59e0b").
Proof. vm_compute. repeat split. Qed.

Example ToNumber_samples :
  map ToNumber [None; Some JNull; Some (JBool true); Some (JNum 82);
                Some (JStr (lit " 82.5 ")); Some (JStr (lit "0x10"));
                Some (JStr (lit "-Infinity")); Some (JStr (lit "82%"));
                Some (JStr []); Some (JArr []); Some (JArr [JNum 82]);
                Some (JArr [JNum 8; JNum 2]); Some (JObj [])]
  = [nan; 0; 1; 82; 82.5; 16; neg_infinity; nan; 0; 0; 82; nan; nan]%float.
Proof. vm_compute. reflexivity. Qed.

(** A frame at 2000.1 ms of an animation started at 0.1 ms is the last
    one: the difference of the two doubles is 2000. *)
Example last_frame_sample :
  last_frame 0.1 2000.1 = true
  /\ fst (animation_frames cube [2000.1]%float [Frame (Some (JNum 75)) 0.1%float]
            (sample_page [] [])) = []
  /\ color (snd (animation_frames cube [2000.1]%float
                   [Frame (Some (JNum 75)) 0.1%float] (sample_page [] []))
              scoreValue) = lit "#10b981".
Proof. vm_compute. repeat split. Qed.

(** ** Validation *)

Lemma missing_or_blank_is_blank (v : jsvalue) :
  missing_or_blank v = Normal (blank v).
Proof.
  destruct v as [| |s]; try reflexivity.
  unfold missing_or_blank, truthy, blank; simpl.
  destruct s as [|c s]; reflexivity.
Qed.

Lemma trim_length_of_present (v : jsvalue) :
  blank v = false -> trim_length v = Normal (trimmed_length v).
Proof. destruct v; simpl; intros H; try discriminate; reflexivity. Qed.

(** [validateInputs] never throws on a text or a missing value, and its
    answer is the first failing condition. *)
Lemma validateInputs_first_failure (jd rs : jsvalue) :
  validateInputs jd rs = Normal (verdict_for (first_failure jd rs)).
Proof.
  unfold validateInputs, first_failure.
  rewrite !missing_or_blank_is_blank; simpl.
  destruct (blank jd) eqn:Bj; [reflexivity|].
  destruct (blank rs) eqn:Br; [reflexivity|].
  rewrite (trim_length_of_present jd Bj), (trim_length_of_present rs Br); simpl.
  destruct (trimmed_length jd <? 50); [reflexivity|].
  destruct (trimmed_length rs <? 50); reflexivity.
Qed.

(** ** What a handler can change in the controls of the page *)

Lemma quiet_ret {A} (a : A) : quiet (ret a).
Proof. intros w; reflexivity. Qed.

Lemma quiet_throw {A} (e : error) : quiet (@throw A e).
Proof. intros w; reflexivity. Qed.

Lemma quiet_lift {A} (c : completion A) : quiet (lift c).
Proof. intros w; reflexivity. Qed.

Lemma quiet_schedule (t : task) : quiet (schedule t).
Proof. intros w; reflexivity. Qed.

Lemma quiet_seq {A B} (c : M A) (k : A -> M B) :
  quiet c -> (forall a, quiet (k a)) -> quiet (seq c k).
Proof.
  intros Hc Hk w. unfold seq.
  specialize (Hc w). destruct (c w) as [[a|e] w1]; simpl in *.
  - rewrite (Hk a w1). exact Hc.
  - exact Hc.
Qed.

Lemma quiet_update_cosmetic (i : id) (f : element -> element) :
  cosmetic f -> quiet (on_page (update i f)).
Proof.
  intros Hf w. unfold controls_of, on_page, update; simpl.
  destruct (id_eq_dec i errorMessage), (id_eq_dec i loadingIndicator),
    (id_eq_dec i resultsSection), (id_eq_dec i evaluateBtn);
    subst; try discriminate;
    repeat match goal with
           | |- context [classList (f ?e)] => rewrite (proj1 (Hf e))
           | |- context [disabled (f ?e)] => rewrite (proj2 (Hf e))
           end; reflexivity.
Qed.

Lemma quiet_update_badge (f : element -> element) :
  quiet (on_page (update verdictBadge f)).
Proof. intros w; reflexivity. Qed.

Lemma cosmetic_set_textContent t : cosmetic (set_textContent t).
Proof. intros e; split; reflexivity. Qed.

Lemma cosmetic_clear_innerHTML : cosmetic clear_innerHTML.
Proof. intros e; split; reflexivity. Qed.

Lemma cosmetic_appendChild n : cosmetic (appendChild n).
Proof. intros e; split; reflexivity. Qed.

Lemma quiet_forEach (name : string) (items : option json) (f : json -> M unit) :
  (forall x, quiet (f x)) -> quiet (forEach name items f).
Proof.
  intros Hf. unfold forEach.
  destruct items as [[| | | |l|]|]; try apply quiet_throw.
  induction l as [|x l IH]; simpl.
  - apply quiet_ret.
  - apply quiet_seq; [apply Hf | intros _; exact IH].
Qed.

Lemma quiet_createListItems items parent : quiet (createListItems items parent).
Proof.
  unfold createListItems. apply quiet_seq.
  - apply quiet_update_cosmetic, cosmetic_clear_innerHTML.
  - intros _. apply quiet_forEach. intros x.
    apply quiet_update_cosmetic, cosmetic_appendChild.
Qed.

Lemma quiet_createSuggestionItems items parent :
  quiet (createSuggestionItems items parent).
Proof.
  unfold createSuggestionItems. apply quiet_seq.
  - apply quiet_update_cosmetic, cosmetic_clear_innerHTML.
  - intros _. apply quiet_forEach. intros x.
    apply quiet_update_cosmetic, cosmetic_appendChild.
Qed.

Lemma quiet_animateScore target : quiet (animateScore target).
Proof. intros w; reflexivity. Qed.

Lemma runs_quiet_then {A B} c0 (c : M A) (k : A -> M B) Q :
  quiet c -> (forall a, runs c0 (k a) Q c0) -> runs c0 (seq c k) Q c0.
Proof.
  intros Hc Hk w Hw. unfold seq.
  specialize (Hc w). destruct (c w) as [[a|e] w1]; simpl in Hc.
  - apply Hk. congruence.
  - congruence.
Qed.

Ltac quiet_step :=
  apply runs_quiet_then;
  [ first [ apply quiet_lift | apply quiet_animateScore | apply quiet_update_badge
          | apply quiet_createListItems | apply quiet_createSuggestionItems
          | apply quiet_ret ]
  | intros ? ].

(** [displayResults] reveals the results only by completing; when it
    throws, whatever it filled in stays behind hidden panels. *)
Lemma displayResults_runs (data : json) (c0 : controls) :
  runs c0 (displayResults data) (revealed c0) c0.
Proof.
  unfold displayResults.
  do 5 quiet_step.
  apply runs_quiet_then.
  { destruct (is_string _ "Hire"); [apply quiet_update_badge|].
    destruct (is_string _ "Hold"); [apply quiet_update_badge|].
    destruct (is_string _ "Reject"); [apply quiet_update_badge|apply quiet_ret]. }
  intros _.
  do 10 quiet_step.
  intros w Hw. subst c0. reflexivity.
Qed.

(** ** Class lists *)

Lemma JsString_eqb_refl (s : jsstring) : JsString.eqb s s = true.
Proof. unfold JsString.eqb. destruct (list_eq_dec N.eq_dec s s); congruence. Qed.

Lemma JsString_eqb_eq (a b : jsstring) : JsString.eqb a b = true <-> a = b.
Proof.
  unfold JsString.eqb. destruct (list_eq_dec N.eq_dec a b); split; congruence.
Qed.

Lemma contains_add (tok : jsstring) (l : list jsstring) :
  ClassList.contains tok (ClassList.add tok l) = true.
Proof.
  unfold ClassList.add. destruct (ClassList.contains tok l) eqn:H; [exact H|].
  unfold ClassList.contains. rewrite existsb_app; simpl.
  rewrite JsString_eqb_refl. apply orb_true_iff; right; reflexivity.
Qed.

Lemma contains_remove (tok : jsstring) (l : list jsstring) :
  ClassList.contains tok (ClassList.remove tok l) = false.
Proof.
  unfold ClassList.contains, ClassList.remove.
  induction l as [|x l IH]; simpl; [reflexivity|].
  destruct (JsString.eqb tok x) eqn:E; simpl; [exact IH|].
  rewrite E; exact IH.
Qed.

(** ** The panels *)

Lemma showError_completes (m : jsstring) (w : world) :
  showError m w = (Normal tt, snd (showError m w)).
Proof. reflexivity. Qed.

Lemma showError_controls (m : jsstring) (w : world) :
  controls_of (snd (showError m w)) = failed (controls_of w).
Proof. reflexivity. Qed.

Lemma showError_text (m : jsstring) (w : world) :
  textContent (dom (snd (showError m w)) errorMessage) = m.
Proof. reflexivity. Qed.

(** The input is rejected: the handler shows the message and returns. *)
Lemma begin_rejected (w : world) (rej : rejection) :
  first_failure (Str (jd_of w)) (Str (rs_of w)) = Some rej ->
  evaluateResume_begin w = (Normal None, snd (showError (rejection_message rej) w)).
Proof.
  intros H. unfold evaluateResume_begin, seq, read, lift.
  fold (jd_of w) (rs_of w).
  rewrite validateInputs_first_failure, H. reflexivity.
Qed.

(** The input is accepted: the handler reaches [fetch]. *)
Lemma begin_accepted (w : world) :
  first_failure (Str (jd_of w)) (Str (rs_of w)) = None ->
  let r := evaluate_request (jd_of w) (rs_of w) in
  fst (evaluateResume_begin w) = Normal (Some r)
  /\ controls_of (snd (evaluateResume_begin w)) = submitted r (controls_of w).
Proof.
  intros H r. unfold evaluateResume_begin, seq, read, lift.
  fold (jd_of w) (rs_of w).
  rewrite validateInputs_first_failure, H. repeat split.
Qed.

Lemma on_failure_completes (e : error) (w : world) :
  on_failure e w = (Normal tt, snd (on_failure e w)).
Proof. reflexivity. Qed.

Lemma on_failure_controls (e : error) (w : world) :
  controls_of (snd (on_failure e w)) = failed (noted e (controls_of w)).
Proof. reflexivity. Qed.

Lemma enable_completes (w : world) :
  enable_button w = (Normal tt, snd (enable_button w)).
Proof. reflexivity. Qed.

Lemma enable_controls (w : world) :
  controls_of (snd (enable_button w)) = enabled (controls_of w).
Proof. reflexivity. Qed.

Lemma try_catch_finally_normal body handler final w w1 w2 :
  body w = (Normal tt, w1) -> final w1 = (Normal tt, w2) ->
  try_catch_finally body handler final w = (Normal tt, w2).
Proof. intros Hb Hf. unfold try_catch_finally. rewrite Hb, Hf. reflexivity. Qed.

Lemma try_catch_finally_caught body handler final w e w1 w2 w3 :
  body w = (Throw e, w1) -> handler e w1 = (Normal tt, w2) ->
  final w2 = (Normal tt, w3) ->
  try_catch_finally body handler final w = (Normal tt, w3).
Proof.
  intros Hb Hh Hf. unfold try_catch_finally. rewrite Hb, Hh, Hf. reflexivity.
Qed.

(** After the await: the [try] block either completes, with the results
    revealed, or throws, and then the [catch] block shows the error; the
    button is enabled again in both cases. *)
Lemma resume_outcome (r : reply) (w : world) :
  match await_and_display r w with
  | (Normal _, w1) =>
      fst (evaluateResume_resume r w) = Normal tt
      /\ controls_of (snd (evaluateResume_resume r w))
         = enabled (revealed (controls_of w))
  | (Throw e, w1) =>
      fst (evaluateResume_resume r w) = Normal tt
      /\ controls_of (snd (evaluateResume_resume r w))
         = enabled (failed (noted e (controls_of w)))
      /\ textContent (dom (snd (evaluateResume_resume r w)) errorMessage)
         = shown_message e
  end.
Proof.
  assert (Hq : match await_and_display r w with
               | (Normal _, w1) => controls_of w1 = revealed (controls_of w)
               | (Throw _, w1) => controls_of w1 = controls_of w
               end).
  { destruct r as [e|ok e|ok data]; simpl; try reflexivity.
    destruct ok; simpl.
    - exact (displayResults_runs data (controls_of w) w eq_refl).
    - unfold seq, lift. destruct (Json.get data "error"); reflexivity. }
  unfold evaluateResume_resume.
  destruct (await_and_display r w) as [[[]|e] w1] eqn:Hb.
  - rewrite (try_catch_finally_normal _ _ _ _ _ _ Hb (enable_completes w1)).
    cbn [fst snd]. rewrite enable_controls, Hq. repeat split.
  - rewrite (try_catch_finally_caught _ _ _ _ _ _ _ _ Hb (on_failure_completes e w1) (enable_completes _)).
    cbn [fst snd]. rewrite enable_controls, on_failure_controls, Hq. repeat split.
Qed.

Lemma evaluateResume_rejected (r : reply) (w : world) (rej : rejection) :
  first_failure (Str (jd_of w)) (Str (rs_of w)) = Some rej ->
  evaluateResume r w = showError (rejection_message rej) w.
Proof.
  intros H. unfold evaluateResume, seq. rewrite (begin_rejected w rej H).
  reflexivity.
Qed.

Lemma evaluateResume_accepted (r : reply) (w : world) :
  first_failure (Str (jd_of w)) (Str (rs_of w)) = None ->
  evaluateResume r w = evaluateResume_resume r (snd (evaluateResume_begin w)).
Proof.
  intros H. destruct (begin_accepted w H) as (Hf & _).
  unfold evaluateResume, seq.
  destruct (evaluateResume_begin w) as [c w1]; simpl in *. subst c. reflexivity.
Qed.

(** What the controls say about the panels. *)
Lemma panels_of_controls (w : world) :
  visible (dom w errorMessage)
    = negb (ClassList.contains (lit "hidden") (error_classes (controls_of w)))
  /\ hidden (dom w resultsSection)
    = ClassList.contains (lit "hidden") (results_classes (controls_of w))
  /\ hidden (dom w loadingIndicator)
    = ClassList.contains (lit "hidden") (loading_classes (controls_of w)).
Proof. repeat split. Qed.

Lemma failed_panels (w : world) (c : controls) :
  controls_of w = enabled (failed c) ->
  visible (dom w errorMessage) = true
  /\ hidden (dom w resultsSection) = true
  /\ hidden (dom w loadingIndicator) = true
  /\ disabled (dom w evaluateBtn) = false.
Proof.
  intros H. destruct (panels_of_controls w) as (-> & -> & ->).
  change (disabled (dom w evaluateBtn)) with (button_disabled (controls_of w)).
  rewrite H. cbn [enabled failed error_classes results_classes loading_classes
                  button_disabled].
  rewrite contains_remove, !contains_add. repeat split.
Qed.

Lemma bad_reply_throws (r : reply) (w : world) :
  reply_ok r = false -> exists e, await_and_display r w = (Throw e, w).
Proof.
  destruct r as [e|ok e|[|] data]; simpl; intros H; try discriminate;
    try (eexists; reflexivity).
  unfold seq, lift. destruct (Json.get data "error"); eexists; reflexivity.
Qed.

(** A single execution, nothing else running while it awaits: at its end
    at most one of the error message and the results is visible. *)
Lemma isolated_run_one_panel (r : reply) (w : world) :
  let w' := snd (evaluateResume r w) in
  visible (dom w' errorMessage) && visible (dom w' resultsSection) = false.
Proof.
  intros w'. subst w'.
  destruct (first_failure (Str (jd_of w)) (Str (rs_of w))) as [rej|] eqn:Hv.
  - rewrite (evaluateResume_rejected r w rej Hv).
    unfold visible. destruct (panels_of_controls (snd (showError (rejection_message rej) w)))
      as (_ & -> & _).
    rewrite showError_controls. cbn [failed results_classes].
    rewrite contains_add. apply andb_false_r.
  - rewrite (evaluateResume_accepted r w Hv).
    destruct (begin_accepted w Hv) as (_ & Hc).
    set (w1 := snd (evaluateResume_begin w)) in *.
    pose proof (resume_outcome r w1) as Ho.
    destruct (await_and_display r w1) as [[[]|e] w2].
    + destruct Ho as (_ & Ho).
      destruct (panels_of_controls (snd (evaluateResume_resume r w1))) as (-> & _ & _).
      rewrite Ho, Hc. cbn [enabled revealed submitted error_classes].
      rewrite contains_add. reflexivity.
    + destruct Ho as (_ & Ho & _).
      destruct (failed_panels _ _ Ho) as (_ & Hr & _).
      unfold visible at 2. rewrite Hr. apply andb_false_r.
Qed.

(** A single execution that begins with the button enabled ends with the
    button enabled. *)
Lemma isolated_run_button_enabled (r : reply) (w : world) :
  disabled (dom w evaluateBtn) = false ->
  disabled (dom (snd (evaluateResume r w)) evaluateBtn) = false.
Proof.
  intros Hb.
  destruct (first_failure (Str (jd_of w)) (Str (rs_of w))) as [rej|] eqn:Hv.
  - rewrite (evaluateResume_rejected r w rej Hv). exact Hb.
  - rewrite (evaluateResume_accepted r w Hv).
    set (w1 := snd (evaluateResume_begin w)).
    change (button_disabled (controls_of (snd (evaluateResume_resume r w1))) = false).
    pose proof (resume_outcome r w1) as Ho.
    destruct (await_and_display r w1) as [[[]|e] w2];
      [destruct Ho as (_ & ->) | destruct Ho as (_ & -> & _)]; reflexivity.
Qed.

(** ** Claims about validation *)

Lemma includes_job_short_too_short :
  JsString.includes msg_job_short (lit "too short") = true.
Proof. reflexivity. Qed.

Lemma includes_resume_short_too_short :
  JsString.includes msg_resume_short (lit "too short") = true.
Proof. reflexivity. Qed.

Lemma ltb_50_of_49 (n : nat) : n = 49 -> (n <? 50) = true.
Proof. intros ->; reflexivity. Qed.

Lemma present_of_length (v : jsvalue) (n : nat) :
  trimmed_length v = S n -> blank v = false.
Proof. destruct v; simpl; intros H; try discriminate. rewrite H. reflexivity. Qed.

(** C1: when either text is empty after trimming or shorter than 50 code
    units after trimming, [evaluateResume] does exactly what [showError]
    does with the validation message and returns: the handler ends
    before its [fetch] call, no request is added to those already sent,
    and the error message is visible with that text. *)
Theorem invalid_input_sends_no_request (r : reply) (w : world) :
  JsString.trim (jd_of w) = [] \/ JsString.trim (rs_of w) = []
  \/ JsString.length (JsString.trim (jd_of w)) < 50
  \/ JsString.length (JsString.trim (rs_of w)) < 50 ->
  exists rej : rejection,
    validateInputs (Str (jd_of w)) (Str (rs_of w))
      = Normal (invalid (rejection_message rej))
    /\ evaluateResume r w = showError (rejection_message rej) w
    /\ fst (evaluateResume_begin w) = Normal None
    /\ sent (snd (evaluateResume r w)) = sent w
    /\ visible (dom (snd (evaluateResume r w)) errorMessage) = true
    /\ textContent (dom (snd (evaluateResume r w)) errorMessage)
       = rejection_message rej.
Proof.
  intros H.
  assert (Hlt : JsString.length (JsString.trim (jd_of w)) < 50
                \/ JsString.length (JsString.trim (rs_of w)) < 50).
  { destruct H as [H|[H|[H|H]]]; [left|right|left|right];
      try exact H; rewrite H; apply Nat.ltb_lt; reflexivity. }
  clear H.
  destruct (first_failure (Str (jd_of w)) (Str (rs_of w))) as [rej|] eqn:Hv.
  - exists rej.
    rewrite validateInputs_first_failure, Hv.
    rewrite (evaluateResume_rejected r w rej Hv).
    rewrite (begin_rejected w rej Hv).
    repeat split.
    destruct (panels_of_controls (snd (showError (rejection_message rej) w)))
      as (-> & _ & _).
    rewrite showError_controls. cbn [failed error_classes].
    rewrite contains_remove. reflexivity.
  - exfalso. unfold first_failure in Hv. simpl in Hv.
    destruct (JsString.length (JsString.trim (jd_of w)) =? 0); [discriminate|].
    destruct (JsString.length (JsString.trim (rs_of w)) =? 0); [discriminate|].
    destruct (JsString.length (JsString.trim (jd_of w)) <? 50) eqn:E1; [discriminate|].
    destruct (JsString.length (JsString.trim (rs_of w)) <? 50) eqn:E2; [discriminate|].
    apply Nat.ltb_ge in E1, E2. lia.
Qed.

Lemma invalid_input_sends_no_request_witness :
  exists rej : rejection,
    validateInputs (Str (letters 60)) (Str (spaces 4 ++ letters 49))
      = Normal (invalid (rejection_message rej))
    /\ sent (snd (evaluateResume (Responded true JNull)
                    (sample_world (letters 60) (spaces 4 ++ letters 49)))) = [].
Proof.
  destruct (invalid_input_sends_no_request (Responded true JNull)
              (sample_world (letters 60) (spaces 4 ++ letters 49)))
    as (rej & Hv & _ & _ & Hs & _).
  - right; right; right. apply Nat.ltb_lt. reflexivity.
  - exists rej. split; [exact Hv | exact Hs].
Defined.

(** C2: [validateInputs] applies the four conditions in the order missing
    or empty job description, missing or empty resume, job description
    shorter than 50 after trimming, resume shorter than 50 after trimming,
    and returns the message of the first that holds (the valid result when
    none does); so with both fields missing or empty it returns the job
    description's missing message, and with both present and both too
    short the job description's too-short message. *)
Theorem validateInputs_checks_in_order (jd rs : jsvalue) :
  validateInputs jd rs = Normal (verdict_for (first_failure jd rs))
  /\ (blank jd = true -> blank rs = true ->
      validateInputs jd rs = Normal (invalid msg_enter_job))
  /\ (blank jd = false -> blank rs = false ->
      trimmed_length jd < 50 -> trimmed_length rs < 50 ->
      validateInputs jd rs = Normal (invalid msg_job_short)).
Proof.
  rewrite validateInputs_first_failure. unfold first_failure.
  split; [reflexivity|split].
  - intros -> _. reflexivity.
  - intros -> -> H1 _. apply Nat.ltb_lt in H1. rewrite H1. reflexivity.
Qed.

Lemma validateInputs_checks_in_order_witness :
  validateInputs (Str (spaces 2)) Undefined = Normal (invalid msg_enter_job)
  /\ validateInputs (Str (letters 10)) (Str (letters 20))
     = Normal (invalid msg_job_short).
Proof.
  split.
  - apply (proj1 (proj2 (validateInputs_checks_in_order (Str (spaces 2)) Undefined)));
      reflexivity.
  - apply (proj2 (proj2 (validateInputs_checks_in_order
                           (Str (letters 10)) (Str (letters 20)))));
      try reflexivity; apply Nat.ltb_lt; reflexivity.
Defined.

(** C3, as stated, fails: a job description of 49 characters next to an
    empty resume is answered with the missing-resume message, which does
    not contain [too short]. *)
Lemma short_job_with_empty_resume_is_not_too_short :
  ~ (forall (jd : jsstring) (rs : jsvalue),
        JsString.length (JsString.trim jd) = 49 ->
        exists m, validateInputs (Str jd) rs = Normal (invalid m)
                  /\ JsString.includes m (lit "too short") = true).
Proof.
  intros H. destruct (H (letters 49) (Str []) eq_refl) as (m & Hv & Hm).
  vm_compute in Hv. injection Hv as <-. vm_compute in Hm. discriminate.
Qed.

(** C3, amended: a job description of trimmed length 49 is always
    rejected: with the message [Please enter a resume] when the resume is
    missing or empty after trimming, and with the job description's
    too-short message (which contains [too short]) otherwise; at trimmed
    length 50 the job description passes its checks and the answer
    depends on the resume alone.  The same boundary holds for the resume:
    at trimmed length 49 the answer is a rejection, with
    [Please enter a job description] when the job description is missing
    or empty after trimming, with the job description's too-short message
    when it has fewer than 50 characters after trimming, and with the
    resume's too-short message (which contains [too short]) when it has
    at least 50; at trimmed length 50 the resume passes its length check
    and the answer depends on the job description alone. *)
Theorem length_boundary_49_50 (jd rs : jsvalue) :
  (trimmed_length jd = 49 ->
     validateInputs jd rs
     = Normal (invalid (if blank rs then msg_enter_resume else msg_job_short))
     /\ (blank rs = true ->
         validateInputs jd rs = Normal (invalid msg_enter_resume)
         /\ msg_enter_resume = lit "Please enter a resume")
     /\ (blank rs = false ->
         validateInputs jd rs = Normal (invalid msg_job_short)
         /\ JsString.includes msg_job_short (lit "too short") = true))
  /\ (trimmed_length jd = 50 ->
      validateInputs jd rs
      = Normal (if blank rs then invalid msg_enter_resume
                else if trimmed_length rs <? 50 then invalid msg_resume_short
                else ok_validation))
  /\ (trimmed_length rs = 49 ->
      validateInputs jd rs
      = Normal (invalid (if blank jd then msg_enter_job
                         else if trimmed_length jd <? 50 then msg_job_short
                         else msg_resume_short))
      /\ (blank jd = true ->
          validateInputs jd rs = Normal (invalid msg_enter_job)
          /\ msg_enter_job = lit "Please enter a job description")
      /\ (blank jd = false -> trimmed_length jd < 50 ->
          validateInputs jd rs = Normal (invalid msg_job_short)
          /\ JsString.includes msg_job_short (lit "too short") = true)
      /\ (50 <= trimmed_length jd ->
          validateInputs jd rs = Normal (invalid msg_resume_short)
          /\ JsString.includes msg_resume_short (lit "too short") = true))
  /\ (trimmed_length rs = 50 ->
      validateInputs jd rs
      = Normal (if blank jd then invalid msg_enter_job
                else if trimmed_length jd <? 50 then invalid msg_job_short
                else ok_validation)).
Proof.
  rewrite validateInputs_first_failure. unfold first_failure.
  split; [|split; [|split]].
  - intros H. rewrite (present_of_length jd 48 H), (ltb_50_of_49 _ H).
    split; [|split].
    + destruct (blank rs); reflexivity.
    + intros ->. split; reflexivity.
    + intros ->. split; reflexivity.
  - intros H. rewrite (present_of_length jd 49 H), H. simpl.
    destruct (blank rs); [reflexivity|].
    destruct (trimmed_length rs <? 50); reflexivity.
  - intros H. rewrite (present_of_length rs 48 H), (ltb_50_of_49 _ H).
    split; [|split; [|split]].
    + destruct (blank jd); [reflexivity|].
      destruct (trimmed_length jd <? 50); reflexivity.
    + intros ->. split; reflexivity.
    + intros -> H0. apply Nat.ltb_lt in H0. rewrite H0. split; reflexivity.
    + intros H0.
      assert (Hj : blank jd = false).
      { destruct (trimmed_length jd) as [|n] eqn:E; [lia|].
        exact (present_of_length jd n E). }
      rewrite Hj. apply Nat.ltb_ge in H0. rewrite H0. split; reflexivity.
  - intros H. rewrite (present_of_length rs 49 H), H. simpl.
    destruct (blank jd); [reflexivity|].
    destruct (trimmed_length jd <? 50); reflexivity.
Qed.

Lemma length_boundary_49_50_witness :
  validateInputs (Str (spaces 1 ++ letters 49)) (Str (letters 60))
    = Normal (invalid msg_job_short)
  /\ validateInputs (Str (letters 49)) (Str (spaces 4))
     = Normal (invalid msg_enter_resume)
  /\ validateInputs (Str (letters 50)) (Str (letters 60)) = Normal ok_validation
  /\ validateInputs (Str (letters 50)) (Str (letters 49 ++ spaces 3))
     = Normal (invalid msg_resume_short).
Proof.
  split; [|split; [|split]].
  - exact (proj1 (proj2 (proj2 (proj1 (length_boundary_49_50
                                  (Str (spaces 1 ++ letters 49)) (Str (letters 60)))
                                eq_refl)) eq_refl)).
  - exact (proj1 (proj1 (proj2 (proj1 (length_boundary_49_50
                                  (Str (letters 49)) (Str (spaces 4)))
                                eq_refl)) eq_refl)).
  - exact (proj1 (proj2 (length_boundary_49_50 (Str (letters 50)) (Str (letters 60))))
             eq_refl).
  - refine (proj1 (proj2 (proj2 (proj2 (proj1 (proj2 (proj2 (length_boundary_49_50
              (Str (letters 50)) (Str (letters 49 ++ spaces 3))))) eq_refl))) _)).
    apply Nat.leb_le. reflexivity.
Defined.

(** C4, as stated, fails: the too-short messages begin with a capital
    letter, so the message for a job description of 49 characters does
    not contain the string [job description], nor does the one for a
    resume of 49 characters contain [resume]. *)
Lemma too_short_message_lacks_lowercase_name :
  validateInputs (Str (letters 49)) (Str (letters 60))
    = Normal (invalid msg_job_short)
  /\ JsString.includes msg_job_short (lit "job description") = false
  /\ validateInputs (Str (letters 60)) (Str (letters 49))
     = Normal (invalid msg_resume_short)
  /\ JsString.includes msg_resume_short (lit "resume") = false.
Proof. repeat split. Qed.

(** C4, amended: every rejection of [validateInputs] carries the message
    of the first failing check, and that message names the field of that
    check up to the case of letters: it contains [job description],
    respectively [resume], when ASCII letter case is ignored.  The
    missing-field messages contain the name as it is; the too-short
    messages start with it capitalised. *)
Theorem message_names_field_ignoring_case (jd rs : jsvalue) (v : validation) :
  validateInputs jd rs = Normal v -> valid v = false ->
  exists rej : rejection,
    first_failure jd rs = Some rej
    /\ message v = Some (rejection_message rej)
    /\ JsString.includes_ignoring_case (rejection_message rej)
         (field_name (rejected_field rej)) = true
    /\ match rej with
       | MissingField f =>
           JsString.includes (rejection_message rej) (field_name f) = true
       | TooShort f =>
           JsString.startsWith (rejection_message rej) (capitalised f) = true
       end.
Proof.
  rewrite validateInputs_first_failure. intros H Hv.
  injection H as <-.
  destruct (first_failure jd rs) as [rej|]; [|discriminate].
  exists rej. destruct rej as [[|]|[|]]; repeat split.
Qed.

Lemma message_names_field_ignoring_case_witness :
  exists rej : rejection,
    first_failure (Str (letters 49)) (Str (letters 60)) = Some rej
    /\ JsString.includes_ignoring_case (rejection_message rej)
         (field_name (rejected_field rej)) = true.
Proof.
  destruct (message_names_field_ignoring_case
              (Str (letters 49)) (Str (letters 60)) (invalid msg_job_short)
              eq_refl eq_refl) as (rej & Hf & _ & Hi & _).
  exists rej. split; [exact Hf | exact Hi].
Defined.

(** ** Claims about the request cycle *)

(** C6: when the reply is a rejected [fetch], a body that is not JSON,
    or a parsed body with a status that is not ok, the [try] block throws
    without having changed the page; and whenever the [try] block throws,
    also out of [displayResults], the [catch] block logs the error and
    runs [showError], so that the execution ends with the error message
    visible, showing the error's message or the fallback, and with the
    results and the loading indicator hidden.  [w] is the state of the
    page when the awaited reply arrives, whatever happened before. *)
Theorem failed_request_shows_error_only (r : reply) (w : world) :
  let w' := snd (evaluateResume_resume r w) in
  (reply_ok r = false -> exists e, await_and_display r w = (Throw e, w))
  /\ (forall e w2, await_and_display r w = (Throw e, w2) ->
      controls_of w' = enabled (failed (noted e (controls_of w)))
      /\ textContent (dom w' errorMessage) = shown_message e
      /\ visible (dom w' errorMessage) = true
      /\ hidden (dom w' resultsSection) = true
      /\ hidden (dom w' loadingIndicator) = true)
  /\ (forall w0, first_failure (Str (jd_of w0)) (Str (rs_of w0)) = None ->
      w = snd (evaluateResume_begin w0) ->
      evaluateResume r w0 = evaluateResume_resume r w).
Proof.
  intros w'. split; [|split].
  - intros Hr. exact (bad_reply_throws r w Hr).
  - intros e w2 Hb. subst w'.
    pose proof (resume_outcome r w) as Ho. rewrite Hb in Ho.
    destruct Ho as (_ & Ho & Ht).
    destruct (failed_panels _ _ Ho) as (H1 & H2 & H3 & _).
    rewrite Ho. repeat split; assumption.
  - intros w0 Hv ->. exact (evaluateResume_accepted r w0 Hv).
Qed.

Lemma failed_request_shows_error_only_witness :
  let w0 := sample_world (letters 50) (letters 50) in
  let r := Responded false (JObj [(lit "error", JStr (lit "Evaluation failed"))]) in
  let w' := snd (evaluateResume r w0) in
  textContent (dom w' errorMessage) = lit "Evaluation failed"
  /\ visible (dom w' errorMessage) = true
  /\ hidden (dom w' resultsSection) = true
  /\ hidden (dom w' loadingIndicator) = true.
Proof.
  intros w0 r w'.
  destruct (failed_request_shows_error_only r (snd (evaluateResume_begin w0)))
    as (_ & H & Hrun).
  destruct (H (Error (lit "Evaluation failed")) (snd (evaluateResume_begin w0)) eq_refl)
    as (_ & Ht & Hrest).
  subst w'. rewrite (Hrun w0 eq_refl eq_refl).
  split; [exact Ht | exact Hrest].
Defined.

(** C8: the second execution below is complete, ends by validation
    failure, and leaves the button disabled.  The page starts with the
    button enabled; a click starts a first execution, which disables the
    button and awaits its response; the resume is emptied; a further
    click is not dispatched, but Ctrl+Enter starts a second execution,
    which shows the validation error, sends nothing, and returns with the
    button still disabled. *)
Theorem button_left_disabled_by_overlapping_run :
  disabled (dom (sample_world (letters 50) (letters 50)) evaluateBtn) = false
  /\ fst (click (sample_world (letters 50) (letters 50)))
     = Normal (Some (evaluate_request (letters 50) (letters 50)))
  /\ disabled (dom first_run_awaiting evaluateBtn) = true
  /\ click resume_emptied = (Normal None, resume_emptied)
  /\ keydown ctrl_enter resume_emptied
     = (Normal None, snd (showError msg_enter_resume resume_emptied))
  /\ (forall r, evaluateResume r resume_emptied
                = showError msg_enter_resume resume_emptied)
  /\ sent second_run_done = sent first_run_awaiting
  /\ disabled (dom second_run_done evaluateBtn) = true.
Proof.
  assert (H : first_failure (Str (jd_of resume_emptied)) (Str (rs_of resume_emptied))
              = Some (MissingField resume_field)) by reflexivity.
  split; [reflexivity|]. split; [reflexivity|]. split; [reflexivity|].
  split; [reflexivity|].
  split; [exact (begin_rejected _ _ H)|].
  split; [intros r; exact (evaluateResume_rejected r _ _ H)|].
  unfold second_run_done.
  change (keydown ctrl_enter resume_emptied) with (evaluateResume_begin resume_emptied).
  rewrite (begin_rejected _ _ H). split; reflexivity.
Qed.

(** C9: the first execution below ends with the error message and the
    results both visible.  While it awaits its response, a second
    execution, started with Ctrl+Enter after the resume was emptied,
    shows a validation error; the first then receives a complete ok
    response and reveals the results without hiding the error. *)
Theorem both_panels_visible_after_overlapping_runs :
  visible (dom second_run_done errorMessage) = true
  /\ fst (await_and_display (Responded true sample_result) second_run_done)
     = Normal tt
  /\ visible (dom first_run_done errorMessage) = true
  /\ visible (dom first_run_done resultsSection) = true
  /\ textContent (dom first_run_done errorMessage) = msg_enter_resume
  /\ disabled (dom first_run_done evaluateBtn) = false.
Proof.
  split; [reflexivity|]. split; [reflexivity|].
  unfold first_run_done. repeat split.
Qed.

(** ** Doubles *)

Lemma one_SF : Prim2SF 1 = S754_finite false 4503599627370496 (-52).
Proof. vm_compute. reflexivity. Qed.

Lemma duration_SF : Prim2SF duration = S754_finite false 8796093022208000 (-42).
Proof. vm_compute. reflexivity. Qed.

Lemma fifty_SF : Prim2SF 50 = S754_finite false 7036874417766400 (-47).
Proof. vm_compute. reflexivity. Qed.

Lemma seventy_five_SF : Prim2SF 75 = S754_finite false 5277655813324800 (-46).
Proof. vm_compute. reflexivity. Qed.

Lemma digits2_pos_iter_xO (k m : positive) :
  Zpos (digits2_pos (Pos.iter xO m k)) = (Zpos (digits2_pos m) + Zpos k)%Z.
Proof.
  induction k using Pos.peano_ind.
  - cbn. lia.
  - rewrite Pos.iter_succ. cbn [digits2_pos]. rewrite Pos2Z.inj_succ, IHk. lia.
Qed.

(** Multiplying by 1 is exact: the product of the two mantissas is the
    mantissa of the other factor shifted by the 52 bits that rounding
    takes away again. *)
Lemma SFmul_one_l (x : spec_float) :
  valid_binary x = true -> SF64mul (Prim2SF 1) x = x.
Proof.
  intros V. rewrite one_SF.
  destruct x as [s|s| |s m e]; try (destruct s; reflexivity); try reflexivity.
  unfold SF64mul, SFmul.
  simpl in V. unfold bounded, canonical_mantissa in V.
  apply andb_true_iff in V. destruct V as [C B].
  apply Z.eqb_eq in C.
  change (4503599627370496 * m)%positive with (Pos.iter xO m 52).
  pose proof (digits2_pos_iter_xO 52 m) as D.
  unfold binary_round_aux.
  assert (S1 : shr_fexp prec emax (Zpos (Pos.iter xO m 52)) (-52 + e) loc_Exact
               = ({| shr_m := Zpos m; shr_r := false; shr_s := false |}, e)).
  { unfold shr_fexp. unfold Zdigits2. rewrite D.
    replace (fexp prec emax (Z.pos (digits2_pos m) + 52 + (-52 + e)) - (-52 + e))%Z
      with 52%Z.
    2:{ replace (Z.pos (digits2_pos m) + 52 + (-52 + e))%Z
          with (Z.pos (digits2_pos m) + e)%Z by lia.
        rewrite C. lia. }
    unfold shr. apply f_equal2; [reflexivity | lia]. }
  rewrite S1. cbn [shr_m loc_of_shr_record round_nearest_even].
  assert (S2 : shr_fexp prec emax (Zpos m) e loc_Exact
               = ({| shr_m := Zpos m; shr_r := false; shr_s := false |}, e)).
  { unfold shr_fexp. unfold Zdigits2. rewrite C. rewrite Z.sub_diag. reflexivity. }
  rewrite S2. cbn [shr_m].
  rewrite B. destruct s; reflexivity.
Qed.

Lemma float_mul_one_l (x : float) : (1 * x)%float = x.
Proof.
  apply Prim2SF_inj. rewrite mul_spec. apply SFmul_one_l, Prim2SF_valid.
Qed.

(** *** Order *)

Lemma SFcompare_swap (a b : spec_float) :
  SFcompare b a
  = match SFcompare a b with Some c => Some (CompOpp c) | None => None end.
Proof.
  destruct a as [sa|sa| |sa ma ea], b as [sb|sb| |sb mb eb];
    try destruct sa; try destruct sb; try reflexivity; simpl;
    rewrite (Z.compare_antisym ea eb);
    destruct (ea ?= eb)%Z; simpl; try reflexivity.
  - rewrite CompOpp_involutive.
    rewrite (Pos.compare_cont_antisym mb ma Eq). reflexivity.
  - rewrite (Pos.compare_cont_antisym ma mb Eq). reflexivity.
Qed.

Lemma SFcompare_defined (a b : spec_float) :
  a <> S754_nan -> b <> S754_nan -> exists c, SFcompare a b = Some c.
Proof.
  intros Ha Hb.
  destruct a as [sa|sa| |sa ma ea], b as [sb|sb| |sb mb eb];
    try congruence; simpl; eexists; reflexivity.
Qed.

Lemma SFcompare_Eq_finite (m : positive) (e : Z) (x : spec_float) :
  SFcompare (S754_finite false m e) x = Some Eq -> x = S754_finite false m e.
Proof.
  destruct x as [s|s| |s mx ex]; simpl; try discriminate.
  - destruct s; discriminate.
  - destruct s; [discriminate|].
    destruct (e ?= ex)%Z eqn:E; try discriminate.
    intros H. injection H as H. apply Pos.compare_eq in H.
    apply Z.compare_eq in E. subst. reflexivity.
Qed.

Lemma float_not_nan (x : float) : Prim2SF x <> S754_nan -> is_nan x = false.
Proof.
  intros H. destruct (is_nan x) eqn:E; [|reflexivity].
  exfalso. apply H. unfold Prim2SF. rewrite E. reflexivity.
Qed.

Lemma leb_true_not_nan (a x : float) : (a <=? x)%float = true -> Prim2SF x <> S754_nan.
Proof.
  rewrite leb_spec. intros H E. rewrite E in H.
  unfold SFleb, SFcompare in H. destruct (Prim2SF a); discriminate.
Qed.

Lemma ltb_true_not_nan (x a : float) : (x <? a)%float = true -> Prim2SF x <> S754_nan.
Proof.
  rewrite ltb_spec. intros H E. rewrite E in H. discriminate.
Qed.

Lemma ltb_not_leb (a b : float) : (a <? b)%float = true -> (b <=? a)%float = false.
Proof.
  rewrite ltb_spec, leb_spec. unfold SFltb, SFleb.
  rewrite (SFcompare_swap (Prim2SF a) (Prim2SF b)).
  destruct (SFcompare (Prim2SF a) (Prim2SF b)) as [[| |]|]; try discriminate.
  reflexivity.
Qed.

Lemma not_leb_ltb (a b : float) :
  Prim2SF a <> S754_nan -> Prim2SF b <> S754_nan ->
  (a <=? b)%float = false -> (b <? a)%float = true.
Proof.
  intros Ha Hb. rewrite ltb_spec, leb_spec. unfold SFltb, SFleb.
  rewrite (SFcompare_swap (Prim2SF a) (Prim2SF b)).
  destruct (SFcompare_defined _ _ Ha Hb) as (c & ->).
  destruct c; try discriminate. reflexivity.
Qed.

Lemma SFltb_lower_exponent (x : spec_float) (m1 m2 : positive) (e1 e2 : Z) :
  (e1 < e2)%Z ->
  SFltb x (S754_finite false m1 e1) = true ->
  SFltb x (S754_finite false m2 e2) = true.
Proof.
  intros He. unfold SFltb.
  destruct x as [z|i| |sg m e]; simpl; try (intros; reflexivity || discriminate).
  - destruct i; intros; reflexivity || discriminate.
  - destruct sg; [reflexivity|].
    destruct (Z.compare_spec e e1) as [E|E|E];
      destruct (Z.compare_spec e e2) as [F|F|F]; try lia; try discriminate;
      reflexivity.
Qed.

Lemma below_50_below_75 (s : float) : (s <? 50)%float = true -> (s <? 75)%float = true.
Proof.
  rewrite !ltb_spec, fifty_SF, seventy_five_SF.
  apply SFltb_lower_exponent. lia.
Qed.

(** *** [Math.min] against 1 *)

Lemma min_one_reached (q : float) :
  (1 <=? q)%float = true -> Math.min q 1 = 1%float.
Proof.
  intros H. pose proof (leb_true_not_nan _ _ H) as Hq.
  unfold Math.min. rewrite (float_not_nan q Hq).
  change (is_nan 1) with false. change (is_zero 1) with false.
  rewrite andb_false_r. cbn [orb].
  destruct (1 <? q)%float eqn:L; [reflexivity|].
  apply Prim2SF_inj. rewrite one_SF.
  apply SFcompare_Eq_finite.
  rewrite leb_spec in H. rewrite ltb_spec in L. rewrite one_SF in H, L.
  unfold SFleb in H. unfold SFltb in L.
  destruct (SFcompare (S754_finite false 4503599627370496 (-52)) (Prim2SF q))
    as [[| |]|]; try discriminate. reflexivity.
Qed.

Lemma min_one_below (q : float) :
  Prim2SF q <> S754_nan -> (1 <=? q)%float = false ->
  Math.min q 1 = q /\ (q <? 1)%float = true.
Proof.
  intros Hq H.
  assert (H1 : Prim2SF 1 <> S754_nan) by (rewrite one_SF; discriminate).
  pose proof (not_leb_ltb _ _ H1 Hq H) as L.
  split; [|exact L].
  unfold Math.min. rewrite (float_not_nan q Hq).
  change (is_nan 1) with false. change (is_zero 1) with false.
  rewrite andb_false_r. cbn [orb].
  destruct (1 <? q)%float eqn:L1; [|reflexivity].
  apply ltb_not_leb in L1.
  rewrite leb_spec in L1. rewrite ltb_spec in L. unfold SFleb in L1. unfold SFltb in L.
  destruct (SFcompare (Prim2SF q) (Prim2SF 1)) as [[| |]|]; discriminate.
Qed.

(** *** No [NaN] from finite times *)

Lemma shr_1_nonneg (r : shr_record) : (0 <= shr_m r)%Z -> (0 <= shr_m (shr_1 r))%Z.
Proof.
  destruct r as [m r s]. destruct m as [|[p|p|]|[p|p|]]; simpl; lia.
Qed.

Lemma iter_shr_1_nonneg (p : positive) :
  forall r, (0 <= shr_m r)%Z -> (0 <= shr_m (iter_pos shr_1 p r))%Z.
Proof.
  induction p as [p IH|p IH|]; intros r H; simpl.
  - apply IH, IH, shr_1_nonneg, H.
  - apply IH, IH, H.
  - apply shr_1_nonneg, H.
Qed.

Lemma shr_fexp_nonneg (m e : Z) (l : location) :
  (0 <= m)%Z -> (0 <= shr_m (fst (shr_fexp prec emax m e l)))%Z.
Proof.
  intros H. unfold shr_fexp, shr.
  assert (H0 : (0 <= shr_m (shr_record_of_loc m l))%Z).
  { destruct l as [|[| |]]; exact H. }
  destruct (fexp prec emax (Zdigits2 m + e) - e)%Z; simpl; try exact H0.
  apply iter_shr_1_nonneg, H0.
Qed.

Lemma round_nearest_even_nonneg (m : Z) (l : location) :
  (0 <= m)%Z -> (0 <= round_nearest_even m l)%Z.
Proof.
  intros H. destruct l as [|[| |]]; simpl; try destruct (Z.even m); lia.
Qed.

Lemma binary_round_aux_not_nan (s : bool) (m e : Z) (l : location) :
  (0 <= m)%Z -> binary_round_aux prec emax s m e l <> S754_nan.
Proof.
  intros H. unfold binary_round_aux.
  pose proof (shr_fexp_nonneg m e l H) as H1.
  destruct (shr_fexp prec emax m e l) as [mrs' e']. simpl in H1.
  pose proof (shr_fexp_nonneg _ e' loc_Exact
                (round_nearest_even_nonneg _ (loc_of_shr_record mrs') H1)) as H2.
  destruct (shr_fexp prec emax
              (round_nearest_even (shr_m mrs') (loc_of_shr_record mrs')) e' loc_Exact)
    as [mrs'' e'']. simpl in H2.
  destruct (shr_m mrs'') as [|p|p]; try discriminate.
  - destruct (e'' <=? emax - prec)%Z; discriminate.
  - lia.
Qed.

Lemma binary_normalize_not_nan (m e : Z) (szero : bool) :
  binary_normalize prec emax m e szero <> S754_nan.
Proof.
  unfold binary_normalize, binary_round.
  destruct m as [|p|p]; try discriminate;
    destruct (shl_align p e (fexp prec emax (Z.pos (digits2_pos p) + e)));
    apply binary_round_aux_not_nan; lia.
Qed.

Lemma is_finite_SF (x : float) : is_finite x = true -> finite_SF (Prim2SF x).
Proof.
  unfold is_finite. intros H. apply negb_true_iff, orb_false_iff in H.
  destruct H as [Hn Hi]. unfold Prim2SF. rewrite Hn, Hi.
  destruct (is_zero x); [exact I|].
  match goal with |- context [let (_, _) := ?t in _] => destruct t end.
  match goal with |- context [let (_, _) := ?t in _] => destruct t as [r e'] end.
  destruct (shr_m r); exact I.
Qed.

Lemma SFsub_not_nan (a b : spec_float) :
  finite_SF a -> finite_SF b -> SF64sub a b <> S754_nan.
Proof.
  unfold SF64sub, SFsub.
  destruct a as [sa|sa| |sa ma ea], b as [sb|sb| |sb mb eb];
    simpl; intros Ha Hb; try contradiction; try discriminate.
  - destruct sa, sb; discriminate.
  - apply binary_normalize_not_nan.
Qed.

Lemma SFdiv_duration_not_nan (x : spec_float) :
  x <> S754_nan -> SF64div x (Prim2SF duration) <> S754_nan.
Proof.
  rewrite duration_SF. unfold SF64div, SFdiv.
  destruct x as [s|s| |s m e]; intros H; try congruence; try discriminate.
  unfold SFdiv_core_binary.
  set (m' := match (e - -42 - Z.min _ _)%Z with
             | Z0 => Zpos m | Zpos _ => _ | Zneg _ => 0%Z end).
  assert (Hm : (0 <= m')%Z).
  { unfold m'. destruct (e - -42 - Z.min _ _)%Z; try lia.
    apply Z.shiftl_nonneg. lia. }
  pose proof (Z.div_pos m' (Zpos 8796093022208000) Hm eq_refl) as Hq.
  unfold Z.div in Hq.
  destruct (Z.div_eucl m' (Zpos 8796093022208000)) as [q r].
  apply binary_round_aux_not_nan. exact Hq.
Qed.

(** The share of the duration that has elapsed is a number at every
    frame whose time is finite. *)
Lemma elapsed_share_not_nan (start t : float) :
  is_finite start = true -> is_finite t = true ->
  Prim2SF ((t - start) / duration) <> S754_nan.
Proof.
  intros Hs Ht. rewrite div_spec. apply SFdiv_duration_not_nan.
  rewrite sub_spec. apply SFsub_not_nan; apply is_finite_SF; assumption.
Qed.

(** ** The score animation *)

Lemma color_after_set (c : jsstring) (p : page) :
  color (update scoreValue (set_color c) p scoreValue) = c.
Proof. reflexivity. Qed.

Lemma verdict_of_score_bands (s : float) :
  ((75 <=? s)%float = true -> verdict_of_score s = Hire)
  /\ ((50 <=? s)%float = true -> (s <? 75)%float = true -> verdict_of_score s = Hold)
  /\ ((s <? 50)%float = true -> verdict_of_score s = Reject).
Proof.
  unfold verdict_of_score. repeat split.
  - intros ->. reflexivity.
  - intros -> H. rewrite (ltb_not_leb _ _ H). reflexivity.
  - intros H. rewrite (ltb_not_leb _ _ (below_50_below_75 s H)).
    rewrite (ltb_not_leb _ _ H). reflexivity.
Qed.

(** On the scores the service gives, integers from 0 to 100, the
    comparisons of doubles are the comparisons of the integers. *)
Lemma score_comparisons (n : Z) :
  (0 <= n <= 100)%Z ->
  (75 <=? Number.of_Z n)%float = (75 <=? n)%Z
  /\ (50 <=? Number.of_Z n)%float = (50 <=? n)%Z.
Proof.
  intros H.
  assert (A : forallb (fun k =>
                let n := Z.of_nat k in
                Bool.eqb (75 <=? Number.of_Z n)%float (75 <=? n)%Z
                && Bool.eqb (50 <=? Number.of_Z n)%float (50 <=? n)%Z)
              (List.seq 0 101) = true) by (vm_compute; reflexivity).
  rewrite forallb_forall in A.
  specialize (A (Z.to_nat n)). cbv zeta in A.
  rewrite Z2Nat.id in A by lia.
  assert (I : In (Z.to_nat n) (List.seq 0 101)) by (apply in_seq; lia).
  apply A, andb_true_iff in I. destruct I as [I1 I2].
  apply eqb_prop in I1. apply eqb_prop in I2. split; assumption.
Qed.

(** The last frame shows the target: the progress is 1, the eased
    progress is 1, and the product with the target is the target. *)
Lemma updateScore_last_frame (Math_pow : float -> float -> float)
    (s start t : float) (p : page) :
  Math_pow 0%float 3%float = 0%float ->
  last_frame start t = true ->
  snd (updateScore Math_pow s start t p) = false
  /\ color (fst (updateScore Math_pow s start t p) scoreValue)
     = band_color (verdict_of_score s).
Proof.
  intros Hpow H. unfold last_frame in H. unfold updateScore. cbn [fst snd].
  rewrite (min_one_reached _ H). unfold easeOutCubic.
  change (1 - 1)%float with 0%float. rewrite Hpow.
  change (1 - 0)%float with 1%float. rewrite float_mul_one_l.
  split; [reflexivity|].
  unfold verdict_of_score.
  destruct (75 <=? s)%float; [apply color_after_set|].
  destruct (50 <=? s)%float; apply color_after_set.
Qed.

(** Before the last frame, at a finite time, another frame is requested. *)
Lemma updateScore_continues (Math_pow : float -> float -> float)
    (s start t : float) (p : page) :
  is_finite start = true -> is_finite t = true ->
  last_frame start t = false ->
  snd (updateScore Math_pow s start t p) = true.
Proof.
  intros Hs Ht H. unfold last_frame in H. unfold updateScore. cbn [snd].
  destruct (min_one_below _ (elapsed_share_not_nan start t Hs Ht) H) as [-> L].
  exact L.
Qed.

Lemma animating_app (a b : list task) :
  animating (a ++ b) = animating a || animating b.
Proof. apply existsb_app. Qed.

Lemma animation_frame_timers (Math_pow : float -> float -> float) (t : float)
    (tasks : list task) (p : page) :
  animating tasks = false -> animation_frame Math_pow t tasks p = (tasks, p).
Proof.
  induction tasks as [|[ms st|d j] tasks IH]; simpl; intros H.
  - reflexivity.
  - discriminate.
  - rewrite (IH H). reflexivity.
Qed.

Lemma animation_frames_timers (Math_pow : float -> float -> float)
    (times : list float) (tasks : list task) (p : page) :
  animating tasks = false -> animation_frames Math_pow times tasks p = (tasks, p).
Proof.
  intros H. induction times as [|t times IH]; simpl.
  - reflexivity.
  - rewrite (animation_frame_timers _ _ _ _ H). exact IH.
Qed.

(** A frame of the browser with one animation running is one call of
    [updateScore]. *)
Lemma animation_frame_single (Math_pow : float -> float -> float) (t : float)
    (ms : option json) (start : float) (pre post : list task) (p : page) :
  animating pre = false -> animating post = false ->
  animation_frame Math_pow t (pre ++ Frame ms start :: post) p
  = (if snd (updateScore Math_pow (ToNumber ms) start t p)
     then pre ++ Frame ms start :: post else pre ++ post,
     fst (updateScore Math_pow (ToNumber ms) start t p)).
Proof.
  intros Hpre Hpost.
  induction pre as [|[ms' st'|d j] pre IH].
  - cbn [app animation_frame].
    destruct (updateScore Math_pow (ToNumber ms) start t p) as [p1 again].
    cbn [fst snd]. rewrite (animation_frame_timers _ _ _ _ Hpost).
    destruct again; reflexivity.
  - discriminate Hpre.
  - cbn [app animation_frame]. rewrite (IH Hpre).
    destruct (snd (updateScore Math_pow (ToNumber ms) start t p)); reflexivity.
Qed.

(** An animation whose frames come at finite times, one of them a last
    frame, ends, and leaves the colour of the band of its target. *)
Lemma animation_completes (Math_pow : float -> float -> float)
    (ms : option json) (start : float) (pre post : list task) :
  Math_pow 0%float 3%float = 0%float ->
  animating pre = false -> animating post = false ->
  is_finite start = true ->
  forall times,
    Forall (fun t => is_finite t = true) times ->
    Exists (fun t => last_frame start t = true) times ->
    forall p, exists p',
      animation_frames Math_pow times (pre ++ Frame ms start :: post) p
      = (pre ++ post, p')
      /\ color (p' scoreValue) = band_color (verdict_of_score (ToNumber ms)).
Proof.
  intros Hpow Hpre Hpost Hs times.
  induction times as [|t times IH]; intros Hf He p.
  - inversion He.
  - cbn [animation_frames].
    rewrite (animation_frame_single Math_pow t ms start pre post p Hpre Hpost).
    inversion Hf as [|t' times' Ht Hf']; subst.
    destruct (last_frame start t) eqn:L.
    + destruct (updateScore_last_frame Math_pow (ToNumber ms) start t p Hpow L)
        as [-> Hc].
      rewrite animation_frames_timers.
      * eexists. split; [reflexivity | exact Hc].
      * rewrite animating_app, Hpre, Hpost. reflexivity.
    + rewrite (updateScore_continues Math_pow (ToNumber ms) start t p Hs Ht L).
      apply IH; [exact Hf'|].
      inversion He as [t' times' Hl|t' times' Hl]; subst; [congruence | exact Hl].
Qed.

(** *** What [displayResults] hands to the browser *)

Lemma frameless_ret {A} (a : A) : frameless (ret a).
Proof. intros w. exists []. rewrite app_nil_r. split; reflexivity. Qed.

Lemma frameless_throw {A} (e : error) : frameless (@throw A e).
Proof. intros w. exists []. rewrite app_nil_r. split; reflexivity. Qed.

Lemma frameless_lift {A} (c : completion A) : frameless (lift c).
Proof. intros w. exists []. rewrite app_nil_r. split; reflexivity. Qed.

Lemma frameless_on_page (f : page -> page) : frameless (on_page f).
Proof. intros w. exists []. rewrite app_nil_r. split; reflexivity. Qed.

Lemma frameless_timer (d : nat) (j : timer_job) : frameless (schedule (Timer d j)).
Proof. intros w. exists [Timer d j]. split; reflexivity. Qed.

Lemma frameless_seq {A B} (c : M A) (k : A -> M B) :
  frameless c -> (forall a, frameless (k a)) -> frameless (seq c k).
Proof.
  intros Hc Hk w. unfold seq.
  destruct (Hc w) as (t1 & E1 & F1). destruct (c w) as [[a|e] w1]; simpl in *.
  - destruct (Hk a w1) as (t2 & E2 & F2). exists (t1 ++ t2).
    rewrite E2, E1, app_assoc, animating_app, F1, F2. split; reflexivity.
  - exists t1. split; assumption.
Qed.

Lemma frameless_forEach (name : string) (items : option json) (f : json -> M unit) :
  (forall x, frameless (f x)) -> frameless (forEach name items f).
Proof.
  intros Hf. unfold forEach.
  destruct items as [[| | | |l|]|]; try apply frameless_throw.
  induction l as [|x l IH]; simpl.
  - apply frameless_ret.
  - apply frameless_seq; [apply Hf | intros _; exact IH].
Qed.

Lemma frameless_createListItems items parent : frameless (createListItems items parent).
Proof.
  unfold createListItems. apply frameless_seq; [apply frameless_on_page|].
  intros _. apply frameless_forEach. intros x. apply frameless_on_page.
Qed.

Lemma frameless_createSuggestionItems items parent :
  frameless (createSuggestionItems items parent).
Proof.
  unfold createSuggestionItems. apply frameless_seq; [apply frameless_on_page|].
  intros _. apply frameless_forEach. intros x. apply frameless_on_page.
Qed.

Ltac frameless_step :=
  apply frameless_seq;
  [ first [ apply frameless_lift | apply frameless_on_page
          | apply frameless_createListItems | apply frameless_createSuggestionItems
          | apply frameless_timer | apply frameless_ret ]
  | intros ? ].

(** [displayResults] requests one frame, for the animation of
    [data.match_score] started at the time of the call, and two timers. *)
Lemma displayResults_requests_frame (data : json) (ms : option json) (w : world) :
  Json.get data "match_score" = Normal ms ->
  exists timers,
    scheduled (snd (displayResults data w))
    = scheduled w ++ Frame ms (now w) :: timers
    /\ animating timers = false.
Proof.
  intros H. unfold displayResults.
  unfold seq at 1. unfold lift at 1. rewrite H.
  unfold seq at 1. unfold animateScore at 1. unfold seq at 1. unfold schedule at 1.
  match goal with
  | |- context [snd (?c ?w1)] =>
      assert (F : frameless c); [|destruct (F w1) as (timers & E & T)]
  end.
  { do 3 frameless_step.
    apply frameless_seq.
    { destruct (is_string _ "Hire"); [apply frameless_on_page|].
      destruct (is_string _ "Hold"); [apply frameless_on_page|].
      destruct (is_string _ "Reject"); [apply frameless_on_page|apply frameless_ret]. }
    intros _.
    do 13 frameless_step. apply frameless_timer. }
  exists timers. rewrite E. cbn [scheduled]. rewrite <- app_assoc. split; [reflexivity|exact T].
Qed.

(** C5: [displayResults] starts the animation of [data.match_score] at
    the time of its call.  Whatever the engine's [Math.pow] is beyond
    [Math.pow(+0, 3) = +0], when no other animation is running, the
    browser gives the frames at finite times and one of them is a last
    frame (2000 ms have elapsed, as [updateScore] computes it), the
    animation ends, and the colour it leaves on the score is decided by
    the number [s] the score is, on the thresholds of the verdict alone:
    the colour of the Hire band from 75 up, of the Hold band from 50 up to
    but not including 75, of the Reject band below 50; there is no other
    colour and no other threshold.  For the integers from 0 to 100, the
    scores of the service, the comparisons are those of the integers. *)
Theorem final_color_follows_verdict_bands
    (Math_pow : float -> float -> float) (data : json) (match_score : option json)
    (w : world) (times : list float) :
  Math_pow 0%float 3%float = 0%float ->
  Json.get data "match_score" = Normal match_score ->
  animating (scheduled w) = false ->
  is_finite (now w) = true ->
  Forall (fun t => is_finite t = true) times ->
  Exists (fun t => last_frame (now w) t = true) times ->
  let s := ToNumber match_score in
  let w1 := snd (displayResults data w) in
  exists (tasks : list task) (p' : page),
    animation_frames Math_pow times (scheduled w1) (dom w1) = (tasks, p')
    /\ animating tasks = false
    /\ color (p' scoreValue) = band_color (verdict_of_score s)
    /\ ((75 <=? s)%float = true -> color (p' scoreValue) = lit "#10b981")
    /\ ((50 <=? s)%float = true -> (s <? 75)%float = true ->
        color (p' scoreValue) = lit "#f59e0b")
    /\ ((s <? 50)%float = true -> color (p' scoreValue) = lit "#ef4444")
    /\ (forall n : Z, match_score = Some (JNum n) -> (0 <= n <= 100)%Z ->
        ((75 <= n)%Z -> color (p' scoreValue) = lit "#10b981")
        /\ ((50 <= n < 75)%Z -> color (p' scoreValue) = lit "#f59e0b")
        /\ ((n < 50)%Z -> color (p' scoreValue) = lit "#ef4444")).
Proof.
  intros Hpow Hget Hidle Hnow Hfin Hlast s w1.
  destruct (displayResults_requests_frame data match_score w Hget)
    as (timers & Hsched & Htimers).
  destruct (animation_completes Math_pow match_score (now w) (scheduled w) timers
              Hpow Hidle Htimers Hnow times Hfin Hlast (dom w1))
    as (p' & Hrun & Hc).
  fold s in Hc.
  exists (scheduled w ++ timers), p'.
  split; [unfold w1; rewrite Hsched; exact Hrun|].
  split; [rewrite animating_app, Hidle, Htimers; reflexivity|].
  split; [exact Hc|].
  destruct (verdict_of_score_bands s) as (Hhire & Hhold & Hreject).
  rewrite Hc.
  split; [intros H; rewrite (Hhire H); reflexivity|].
  split; [intros H1 H2; rewrite (Hhold H1 H2); reflexivity|].
  split; [intros H; rewrite (Hreject H); reflexivity|].
  intros n Hms Hn. unfold s. rewrite Hms. cbn [ToNumber].
  destruct (score_comparisons n Hn) as [C75 C50].
  unfold verdict_of_score. rewrite C75, C50.
  split; [|split]; intros H.
  - replace (75 <=? n)%Z with true by (symmetry; apply Z.leb_le; lia).
    reflexivity.
  - replace (75 <=? n)%Z with false by (symmetry; apply Z.leb_gt; lia).
    replace (50 <=? n)%Z with true by (symmetry; apply Z.leb_le; lia).
    reflexivity.
  - replace (75 <=? n)%Z with false by (symmetry; apply Z.leb_gt; lia).
    replace (50 <=? n)%Z with false by (symmetry; apply Z.leb_gt; lia).
    reflexivity.
Qed.

Lemma final_color_follows_verdict_bands_witness :
  let w1 := snd (displayResults sample_result (sample_world [] [])) in
  exists (tasks : list task) (p' : page),
    animation_frames cube [16; 1000; 2016; 2032]%float (scheduled w1) (dom w1)
    = (tasks, p')
    /\ animating tasks = false
    /\ color (p' scoreValue) = lit "#10b981".
Proof.
  intros w1.
  destruct (final_color_follows_verdict_bands cube sample_result (Some (JNum 82))
              (sample_world [] []) [16; 1000; 2016; 2032]%float)
    as (tasks & p' & Hrun & Hidle & _ & Hhire & _);
    try reflexivity.
  - repeat constructor.
  - apply Exists_cons_tl, Exists_cons_tl, Exists_cons_hd. reflexivity.
  - exists tasks, p'. split; [exact Hrun|]. split; [exact Hidle|].
    apply Hhire. reflexivity.
Defined.

(** ** The similarity engine *)

Lemma SFmul_comm (prec emax : Z) (x y : spec_float) :
  SFmul prec emax x y = SFmul prec emax y x.
Proof.
  destruct x as [sx|sx| |sx mx ex], y as [sy|sy| |sy my ey]; simpl;
    try reflexivity; try (rewrite (xorb_comm sx sy); reflexivity).
  rewrite (xorb_comm sx sy), (Pos.mul_comm mx my), (Z.add_comm ex ey).
  reflexivity.
Qed.

(** IEEE multiplication is commutative. *)
Lemma float_mul_comm (x y : float) : (x * y = y * x)%float.
Proof. apply Prim2SF_inj. rewrite !mul_spec. apply SFmul_comm. Qed.

Lemma dot_from_comm (a : list float) :
  forall (b : list float) (acc : float),
    fold_left (fun acc xy => (acc + fst xy * snd xy)%float) (combine a b) acc
    = fold_left (fun acc xy => (acc + fst xy * snd xy)%float) (combine b a) acc.
Proof.
  induction a as [|x a IH]; intros [|y b] acc; simpl; try reflexivity.
  rewrite (float_mul_comm x y). apply IH.
Qed.

Lemma dot_comm (a b : list float) : Similarity.dot a b = Similarity.dot b a.
Proof. apply dot_from_comm. Qed.

(** C7: [cosine_similarity a b] and [cosine_similarity b a] are the same
    result, the same number or the same failure, for all vectors of IEEE
    doubles, in particular for two of equal dimension. *)
Theorem cosine_similarity_symmetric (a b : list float) :
  Similarity.cosine_similarity a b = Similarity.cosine_similarity b a.
Proof.
  unfold Similarity.cosine_similarity.
  rewrite (Nat.eqb_sym (List.length a) (List.length b)).
  rewrite (orb_comm (Similarity.norm a =? 0)%float).
  rewrite (dot_comm a b).
  rewrite (float_mul_comm (Similarity.norm a) (Similarity.norm b)).
  reflexivity.
Qed.

Example cosine_similarity_sample :
  Similarity.cosine_similarity [3; 4]%float [3; 4]%float = inr 1%float
  /\ Similarity.cosine_similarity [0; 0]%float [4; 3]%float
     = inl Similarity.DegenerateVector
  /\ Similarity.cosine_similarity [1]%float [4; 3]%float
     = inl Similarity.DimensionMismatch.
Proof. repeat split. Qed.

(** ** The JSON text of the request reads back as the strings given *)

Lemma hex_value_digit (d : N) : (d < 16)%N -> hex_value (JsonText.hex_digit d) = Some d.
Proof.
  intros H. unfold hex_value, JsonText.hex_digit.
  destruct (N.ltb_spec d 10).
  - replace ((0x30 <=? 0x30 + d) && (0x30 + d <=? 0x39))%N with true.
    + f_equal. lia.
    + symmetry. apply andb_true_iff. split; apply N.leb_le; lia.
  - replace ((0x30 <=? 0x61 + (d - 10)) && (0x61 + (d - 10) <=? 0x39))%N with false.
    + replace ((0x61 <=? 0x61 + (d - 10)) && (0x61 + (d - 10) <=? 0x66))%N with true.
      * f_equal. lia.
      * symmetry. apply andb_true_iff. split; apply N.leb_le; lia.
    + symmetry. apply andb_false_iff. right. apply N.leb_gt. lia.
Qed.

Lemma hex_recombine (c : N) : (c < 65536)%N ->
  ((c / 4096 mod 16) * 4096 + (c / 256 mod 16) * 256 + (c / 16 mod 16) * 16 + c mod 16 = c)%N.
Proof.
  intros H.
  pose proof (N.div_mod c 16 ltac:(discriminate)) as D0.
  pose proof (N.mod_lt c 16 ltac:(discriminate)) as M0.
  pose proof (N.div_mod (c / 16) 16 ltac:(discriminate)) as D1.
  pose proof (N.mod_lt (c / 16) 16 ltac:(discriminate)) as M1.
  pose proof (N.div_mod (c / 256) 16 ltac:(discriminate)) as D2.
  pose proof (N.mod_lt (c / 256) 16 ltac:(discriminate)) as M2.
  pose proof (N.div_mod (c / 4096) 16 ltac:(discriminate)) as D3.
  pose proof (N.mod_lt (c / 4096) 16 ltac:(discriminate)) as M3.
  rewrite N.Div0.div_div in D1, D2, D3.
  change (16 * 16)%N with 256%N in D1.
  change (256 * 16)%N with 4096%N in D2.
  change (4096 * 16)%N with 65536%N in D3.
  rewrite (N.div_small c 65536 H) in D3.
  lia.
Qed.

Lemma mod16_lt (n : N) : (n mod 16 < 16)%N.
Proof. apply N.mod_lt. discriminate. Qed.

Lemma read_escape (c : N) (tail : jsstring) :
  (c < 65536)%N ->
  read_units (JsonText.unicode_escape c ++ tail) = push c (read_units tail).
Proof.
  intros H. unfold JsonText.unicode_escape.
  cbn [app read_units N.eqb Pos.eqb].
  rewrite !hex_value_digit by apply mod16_lt.
  rewrite (hex_recombine c H). reflexivity.
Qed.

Lemma read_plain (c : N) (tail : jsstring) :
  (0x20 <= c)%N -> c <> 0x22%N -> c <> 0x5C%N ->
  read_units (c :: tail) = push c (read_units tail).
Proof.
  intros H1 H2 H3. cbn [read_units].
  apply N.eqb_neq in H2, H3. rewrite H2, H3.
  replace (c <? 0x20)%N with false by (symmetry; apply N.ltb_ge; exact H1).
  reflexivity.
Qed.

Lemma surrogate_range (c : N) :
  JsonText.is_leading_surrogate c || JsonText.is_trailing_surrogate c = true ->
  (0xD800 <= c <= 0xDFFF)%N.
Proof.
  unfold JsonText.is_leading_surrogate, JsonText.is_trailing_surrogate.
  intros H. apply orb_true_iff in H.
  destruct H as [H|H]; apply andb_true_iff in H; destruct H as [H1 H2];
    apply N.leb_le in H1, H2; lia.
Qed.

Lemma read_quote_unit (c : N) (tail : jsstring) :
  read_units (JsonText.quote_unit c ++ tail) = push c (read_units tail).
Proof.
  unfold JsonText.quote_unit.
  destruct (N.eqb_spec c 0x08) as [->|H08]; [reflexivity|].
  destruct (N.eqb_spec c 0x09) as [->|H09]; [reflexivity|].
  destruct (N.eqb_spec c 0x0A) as [->|H0A]; [reflexivity|].
  destruct (N.eqb_spec c 0x0C) as [->|H0C]; [reflexivity|].
  destruct (N.eqb_spec c 0x0D) as [->|H0D]; [reflexivity|].
  destruct (N.eqb_spec c 0x22) as [->|H22]; [reflexivity|].
  destruct (N.eqb_spec c 0x5C) as [->|H5C]; [reflexivity|].
  destruct (N.ltb_spec c 0x20) as [Hlt|Hge]; cbn [orb].
  - apply read_escape. lia.
  - destruct (JsonText.is_leading_surrogate c || JsonText.is_trailing_surrogate c) eqn:Hs.
    + apply read_escape. apply surrogate_range in Hs. lia.
    + apply read_plain; assumption.
Qed.

Lemma quote_units_pair (c d : N) (rest : jsstring) :
  JsonText.quote_units (c :: d :: rest)
  = if JsonText.is_leading_surrogate c && JsonText.is_trailing_surrogate d
    then c :: d :: JsonText.quote_units rest
    else JsonText.quote_unit c ++ JsonText.quote_units (d :: rest).
Proof. reflexivity. Qed.

Lemma read_quote_units (n : nat) :
  forall (s tail : jsstring), List.length s <= n ->
    read_units (JsonText.quote_units s ++ 0x22%N :: tail) = Some (s, tail).
Proof.
  induction n as [|n IH]; intros s tail Hn.
  - destruct s; [reflexivity | simpl in Hn; lia].
  - destruct s as [|c [|d rest]].
    + reflexivity.
    + change (JsonText.quote_units [c]) with (JsonText.quote_unit c).
      rewrite read_quote_unit. reflexivity.
    + assert (H1 : List.length (d :: rest) <= n) by (simpl in *; lia).
      assert (H2 : List.length rest <= n) by (simpl in *; lia).
      rewrite quote_units_pair.
      destruct (JsonText.is_leading_surrogate c && JsonText.is_trailing_surrogate d) eqn:Hp.
      * apply andb_true_iff in Hp. destruct Hp as [Hc Hd].
        assert (Rc : (0xD800 <= c <= 0xDFFF)%N)
          by (apply surrogate_range; rewrite Hc; reflexivity).
        assert (Rd : (0xD800 <= d <= 0xDFFF)%N)
          by (apply surrogate_range; rewrite Hd; apply orb_true_r).
        rewrite <- !app_comm_cons.
        rewrite (read_plain c) by lia. rewrite (read_plain d) by lia.
        rewrite (IH rest tail H2). reflexivity.
      * rewrite <- app_assoc, read_quote_unit.
        rewrite (IH (d :: rest) tail H1). reflexivity.
Qed.

Lemma read_quote (s tail : jsstring) :
  read_units (JsonText.quote_units s ++ 0x22%N :: tail) = Some (s, tail).
Proof. exact (read_quote_units (List.length s) s tail (le_n _)). Qed.

Lemma read_string_quote (s tail : jsstring) :
  read_string (JsonText.quote s ++ tail) = Some (s, tail).
Proof.
  unfold JsonText.quote. rewrite <- !app_assoc.
  change (read_units (JsonText.quote_units s ++ [0x22%N] ++ tail) = Some (s, tail)).
  apply read_quote.
Qed.

Lemma read_member (kv : string * jsstring) (sep : N) (tail : jsstring) (fuel : nat) :
  read_members (S fuel) (JsonText.member kv ++ sep :: tail)
  = if (sep =? 0x7D)%N then
      match tail with [] => Some [decoded kv] | _ :: _ => None end
    else if (sep =? 0x2C)%N then
      option_map (cons (decoded kv)) (read_members fuel tail)
    else None.
Proof.
  unfold JsonText.member. cbn [read_members].
  rewrite <- !app_assoc. rewrite read_string_quote.
  cbn [app N.eqb Pos.eqb]. rewrite read_string_quote. reflexivity.
Qed.

Lemma read_members_join (fields : list (string * jsstring)) :
  forall fuel, fields <> [] -> List.length fields <= fuel ->
    read_members fuel (Json.join [0x2C%N] (map JsonText.member fields) ++ [0x7D%N])
    = Some (map decoded fields).
Proof.
  induction fields as [|kv fs IH]; intros fuel Hne Hf; [congruence|].
  destruct fuel as [|fuel]; [simpl in Hf; lia|].
  destruct fs as [|kv' fs'].
  - cbn [map Json.join]. rewrite read_member. reflexivity.
  - change (Json.join [0x2C%N] (map JsonText.member (kv :: kv' :: fs')))
      with (JsonText.member kv ++ [0x2C%N]
              ++ Json.join [0x2C%N] (map JsonText.member (kv' :: fs'))).
    rewrite <- !app_assoc.
    change ([0x2C%N] ++ Json.join [0x2C%N] (map JsonText.member (kv' :: fs')) ++ [0x7D%N])
      with (0x2C%N :: (Json.join [0x2C%N] (map JsonText.member (kv' :: fs')) ++ [0x7D%N])).
    rewrite read_member. cbn [N.eqb Pos.eqb].
    rewrite IH; [reflexivity | discriminate | simpl in *; lia].
Qed.

Lemma member_length (kv : string * jsstring) : 2 <= List.length (JsonText.member kv).
Proof.
  unfold JsonText.member, JsonText.quote. rewrite !length_app. simpl. lia.
Qed.

Lemma join_length (fields : list (string * jsstring)) :
  2 * List.length fields
  <= List.length (Json.join [0x2C%N] (map JsonText.member fields)).
Proof.
  induction fields as [|kv [|kv' fs] IH].
  - simpl. lia.
  - pose proof (member_length kv). simpl in *. lia.
  - change (Json.join [0x2C%N] (map JsonText.member (kv :: kv' :: fs)))
      with (JsonText.member kv ++ [0x2C%N]
              ++ Json.join [0x2C%N] (map JsonText.member (kv' :: fs))).
    rewrite !length_app. pose proof (member_length kv).
    change (List.length (kv :: kv' :: fs)) with (S (List.length (kv' :: fs))).
    lia.
Qed.

Lemma parse_members (rest : jsstring) :
  2 <= List.length rest ->
  parse (0x7B%N :: rest) = read_members (List.length rest) rest.
Proof.
  destruct rest as [|c1 [|c2 rest']]; simpl; intros H; try lia. reflexivity.
Qed.

Lemma parse_stringify (fields : list (string * jsstring)) :
  parse (JsonText.stringify fields) = Some (map decoded fields).
Proof.
  destruct fields as [|kv fs]; [reflexivity|].
  unfold JsonText.stringify.
  pose proof (join_length (kv :: fs)) as Hl.
  change (List.length (kv :: fs)) with (S (List.length fs)) in Hl.
  change ([0x7B%N] ++ ?x) with (0x7B%N :: x).
  rewrite parse_members by (rewrite length_app; lia).
  apply read_members_join; [discriminate|].
  rewrite length_app. change (List.length (kv :: fs)) with (S (List.length fs)). lia.
Qed.

Lemma sent_after_run (r : reply) (w : world) :
  first_failure (Str (jd_of w)) (Str (rs_of w)) = None ->
  sent (snd (evaluateResume r w))
  = sent w ++ [evaluate_request (jd_of w) (rs_of w)].
Proof.
  intros Hv. rewrite (evaluateResume_accepted r w Hv).
  destruct (begin_accepted w Hv) as (_ & Hc).
  set (w1 := snd (evaluateResume_begin w)) in *.
  change (requests (controls_of (snd (evaluateResume_resume r w1)))
          = requests (controls_of w) ++ [evaluate_request (jd_of w) (rs_of w)]).
  pose proof (resume_outcome r w1) as Ho.
  destruct (await_and_display r w1) as [[[]|e] w2];
    [destruct Ho as (_ & ->) | destruct Ho as (_ & -> & _)];
    rewrite Hc; reflexivity.
Qed.

(** C10: when validation passes, the one request the handler sends is a
    POST to [/evaluate] whose body is [JSON.stringify] of the object made
    of the two text area values as they are: read back, the body gives
    the raw value of each text area under [job_description] and [resume],
    leading and trailing white space included, although validation
    looked at the trimmed lengths only. *)
Theorem request_carries_raw_input (r : reply) (w : world) :
  first_failure (Str (jd_of w)) (Str (rs_of w)) = None ->
  let req := evaluate_request (jd_of w) (rs_of w) in
  fst (evaluateResume_begin w) = Normal (Some req)
  /\ sent (snd (evaluateResume_begin w)) = sent w ++ [req]
  /\ sent (snd (evaluateResume r w)) = sent w ++ [req]
  /\ url req = lit "/evaluate"
  /\ method req = lit "POST"
  /\ body req = JsonText.stringify [("job_description"%string, jd_of w);
                                    ("resume"%string, rs_of w)]
  /\ JsonRead.parse (body req)
     = Some [(lit "job_description", jd_of w); (lit "resume", rs_of w)].
Proof.
  intros Hv req.
  destruct (begin_accepted w Hv) as (Hf & Hc).
  split; [exact Hf|]. split.
  { change (requests (controls_of (snd (evaluateResume_begin w)))
            = requests (controls_of w) ++ [req]).
    rewrite Hc. reflexivity. }
  split; [exact (sent_after_run r w Hv)|].
  repeat split.
  exact (parse_stringify [("job_description"%string, jd_of w);
                          ("resume"%string, rs_of w)]).
Qed.

Lemma request_carries_raw_input_witness :
  let jd := spaces 3 ++ letters 50 ++ [0x0A%N] in
  let rs := [0x09%N] ++ letters 50 in
  JsonRead.parse (body (evaluate_request jd rs))
    = Some [(lit "job_description", jd); (lit "resume", rs)]
  /\ JsString.trim jd = letters 50
  /\ JsString.trim rs = letters 50.
Proof.
  intros jd rs.
  destruct (request_carries_raw_input (Responded true sample_result)
              (sample_world jd rs) eq_refl) as (_ & _ & _ & _ & _ & _ & Hp).
  split; [exact Hp|]. split; reflexivity.
Defined.

(** * Further properties of the script *)

(** ** Trimming and validation *)

Lemma trimStart_white (b : jsstring) : white b -> JsString.trimStart b = [].
Proof.
  induction 1 as [|c b Hc _ IH]; simpl; [reflexivity|]. rewrite Hc. exact IH.
Qed.

Lemma trimStart_white_app (a s : jsstring) :
  white a -> JsString.trimStart (a ++ s) = JsString.trimStart s.
Proof.
  induction 1 as [|c a Hc _ IH]; simpl; [reflexivity|]. rewrite Hc. exact IH.
Qed.

Lemma trimStart_app (s b : jsstring) :
  JsString.trimStart (s ++ b)
  = match JsString.trimStart s with
    | [] => JsString.trimStart b
    | _ :: _ => JsString.trimStart s ++ b
    end.
Proof.
  induction s as [|c s IH]; simpl; [reflexivity|].
  destruct (JsString.is_white_space c); [exact IH | reflexivity].
Qed.

Lemma trimEnd_app_white (t b : jsstring) :
  white b -> JsString.trimEnd (t ++ b) = JsString.trimEnd t.
Proof.
  intros Hb. unfold JsString.trimEnd. rewrite rev_app_distr.
  rewrite trimStart_white_app; [reflexivity|].
  apply Forall_rev. exact Hb.
Qed.

(** White space around a text does not change what [trim] leaves. *)
Lemma trim_padded (a s b : jsstring) :
  white a -> white b -> JsString.trim (a ++ s ++ b) = JsString.trim s.
Proof.
  intros Ha Hb. unfold JsString.trim.
  rewrite (trimStart_white_app a (s ++ b) Ha), trimStart_app.
  destruct (JsString.trimStart s) as [|c t] eqn:E.
  - rewrite (trimStart_white b Hb). reflexivity.
  - apply trimEnd_app_white. exact Hb.
Qed.

Lemma trimStart_length (s : jsstring) :
  List.length (JsString.trimStart s) <= List.length s.
Proof.
  induction s as [|c s IH]; simpl; [lia|].
  destruct (JsString.is_white_space c); simpl; lia.
Qed.

Lemma trim_length_le (s : jsstring) :
  JsString.length (JsString.trim s) <= JsString.length s.
Proof.
  unfold JsString.length, JsString.trim, JsString.trimEnd.
  rewrite length_rev.
  pose proof (trimStart_length (rev (JsString.trimStart s))) as H1.
  rewrite length_rev in H1.
  pose proof (trimStart_length s). lia.
Qed.

Lemma rejection_message_nonempty (rej : rejection) : rejection_message rej <> [].
Proof. destruct rej as [[|]|[|]]; discriminate. Qed.

(** X1: [validateInputs] returns normally on every text and on a missing
    value ([undefined], [null]); the result is valid exactly when both
    values are present with at least 50 code units left after trimming;
    a valid result carries no message and an invalid one a non-empty
    message. *)
Theorem validateInputs_accepts_exactly (jd rs : jsvalue) :
  exists v : validation,
    validateInputs jd rs = Normal v
    /\ (valid v = true <->
        blank jd = false /\ blank rs = false
        /\ 50 <= trimmed_length jd /\ 50 <= trimmed_length rs)
    /\ (valid v = true -> message v = None)
    /\ (valid v = false -> exists m, message v = Some m /\ m <> []).
Proof.
  exists (verdict_for (first_failure jd rs)).
  split; [apply validateInputs_first_failure|].
  unfold first_failure.
  destruct (blank jd) eqn:Bj.
  { repeat split; try discriminate; try (intros (H & _); discriminate).
    intros _. eexists; split; [reflexivity | discriminate]. }
  destruct (blank rs) eqn:Br.
  { repeat split; try discriminate; try (intros (_ & H & _); discriminate).
    intros _. eexists; split; [reflexivity | discriminate]. }
  destruct (trimmed_length jd <? 50) eqn:Lj.
  { apply Nat.ltb_lt in Lj.
    repeat split; try discriminate; try (intros (_ & _ & H & _); lia).
    intros _. eexists; split; [reflexivity | discriminate]. }
  destruct (trimmed_length rs <? 50) eqn:Lr.
  { apply Nat.ltb_lt in Lr.
    repeat split; try discriminate; try (intros (_ & _ & _ & H); lia).
    intros _. eexists; split; [reflexivity | discriminate]. }
  apply Nat.ltb_ge in Lj, Lr.
  repeat split; try assumption; discriminate.
Qed.

(** X2: white space before and after a text does not change the answer of
    [validateInputs]: the padded texts get the same result, same message
    included, as the texts themselves. *)
Theorem validateInputs_ignores_padding (a1 jd a2 b1 rs b2 : jsstring) :
  white a1 -> white a2 -> white b1 -> white b2 ->
  validateInputs (Str (a1 ++ jd ++ a2)) (Str (b1 ++ rs ++ b2))
  = validateInputs (Str jd) (Str rs).
Proof.
  intros H1 H2 H3 H4. rewrite !validateInputs_first_failure.
  unfold first_failure, blank, trimmed_length.
  rewrite (trim_padded a1 jd a2 H1 H2), (trim_padded b1 rs b2 H3 H4).
  reflexivity.
Qed.

Lemma validateInputs_ignores_padding_witness :
  validateInputs (Str ([0x20; 0x09]%N ++ letters 50 ++ [0x0A]%N))
                 (Str ([0xA0]%N ++ letters 49 ++ [0x0D; 0x0A]%N))
  = validateInputs (Str (letters 50)) (Str (letters 49)).
Proof.
  apply (validateInputs_ignores_padding [0x20; 0x09]%N (letters 50) [0x0A]%N
           [0xA0]%N (letters 49) [0x0D; 0x0A]%N);
    repeat constructor.
Defined.

(** X3: a request is handed to [fetch] only for texts that keep at least
    50 code units after trimming, hence have at least 50 themselves, and
    it is the request built from the two text area values. *)
Theorem request_only_for_long_texts (w : world) (req : request) :
  fst (evaluateResume_begin w) = Normal (Some req) ->
  req = evaluate_request (jd_of w) (rs_of w)
  /\ 50 <= JsString.length (JsString.trim (jd_of w)) <= JsString.length (jd_of w)
  /\ 50 <= JsString.length (JsString.trim (rs_of w)) <= JsString.length (rs_of w).
Proof.
  intros H.
  destruct (first_failure (Str (jd_of w)) (Str (rs_of w))) as [rej|] eqn:Hv.
  - rewrite (begin_rejected w rej Hv) in H. discriminate.
  - destruct (begin_accepted w Hv) as (Hf & _). rewrite Hf in H.
    injection H as <-. split; [reflexivity|].
    pose proof (trim_length_le (jd_of w)). pose proof (trim_length_le (rs_of w)).
    unfold first_failure in Hv. simpl in Hv.
    destruct (JsString.length (JsString.trim (jd_of w)) =? 0); [discriminate|].
    destruct (JsString.length (JsString.trim (rs_of w)) =? 0); [discriminate|].
    destruct (JsString.length (JsString.trim (jd_of w)) <? 50) eqn:E1; [discriminate|].
    destruct (JsString.length (JsString.trim (rs_of w)) <? 50) eqn:E2; [discriminate|].
    apply Nat.ltb_ge in E1, E2. lia.
Qed.

Lemma request_only_for_long_texts_witness :
  50 <= JsString.length (JsString.trim (spaces 2 ++ letters 50))
  /\ 50 <= JsString.length (JsString.trim (letters 64)).
Proof.
  destruct (request_only_for_long_texts
              (sample_world (spaces 2 ++ letters 50) (letters 64))
              (evaluate_request (spaces 2 ++ letters 50) (letters 64)) eq_refl)
    as (_ & (H1 & _) & (H2 & _)).
  split; [exact H1 | exact H2].
Defined.

(** ** The panels and the end of an execution *)

(** X4: from every state of the page, [showError] leaves the error
    message visible with the given text and the other two panels hidden;
    [showLoading] leaves the loading indicator visible and the other two
    panels hidden; [hideError] and [hideLoading] hide their panel and
    leave the classes of the other panels as they are. *)
Theorem panel_functions_show_one_panel (m : jsstring) (w : world) :
  (let w' := snd (showError m w) in
   visible (dom w' errorMessage) = true
   /\ textContent (dom w' errorMessage) = m
   /\ hidden (dom w' loadingIndicator) = true
   /\ hidden (dom w' resultsSection) = true)
  /\ (let w' := snd (showLoading w) in
      visible (dom w' loadingIndicator) = true
      /\ hidden (dom w' errorMessage) = true
      /\ hidden (dom w' resultsSection) = true
      /\ textContent (dom w' errorMessage) = textContent (dom w errorMessage))
  /\ (let w' := snd (hideError w) in
      hidden (dom w' errorMessage) = true
      /\ classList (dom w' loadingIndicator) = classList (dom w loadingIndicator)
      /\ classList (dom w' resultsSection) = classList (dom w resultsSection))
  /\ (let w' := snd (hideLoading w) in
      hidden (dom w' loadingIndicator) = true
      /\ classList (dom w' errorMessage) = classList (dom w errorMessage)
      /\ classList (dom w' resultsSection) = classList (dom w resultsSection)).
Proof.
  split; [|split; [|split]]; cbv zeta.
  - destruct (panels_of_controls (snd (showError m w))) as (-> & -> & ->).
    rewrite showError_controls. cbn [failed error_classes results_classes loading_classes].
    rewrite contains_remove, !contains_add. repeat split.
  - unfold visible, hidden.
    change (classList (dom (snd (showLoading w)) loadingIndicator))
      with (ClassList.remove (lit "hidden") (classList (dom w loadingIndicator))).
    change (classList (dom (snd (showLoading w)) errorMessage))
      with (ClassList.add (lit "hidden") (classList (dom w errorMessage))).
    change (classList (dom (snd (showLoading w)) resultsSection))
      with (ClassList.add (lit "hidden") (classList (dom w resultsSection))).
    rewrite contains_remove, !contains_add. repeat split.
  - unfold hidden.
    change (classList (dom (snd (hideError w)) errorMessage))
      with (ClassList.add (lit "hidden") (classList (dom w errorMessage))).
    rewrite contains_add. repeat split.
  - unfold hidden.
    change (classList (dom (snd (hideLoading w)) loadingIndicator))
      with (ClassList.add (lit "hidden") (classList (dom w loadingIndicator))).
    rewrite contains_add. repeat split.
Qed.

Lemma shown_message_nonempty (e : error) : shown_message e <> [].
Proof.
  unfold shown_message.
  destruct (error_message e) as [|c s]; simpl; discriminate.
Qed.

(** The three ways an execution ends, by the controls it leaves. *)
Lemma run_ends (r : reply) (w : world) :
  fst (evaluateResume r w) = Normal tt
  /\ ((exists rej,
         first_failure (Str (jd_of w)) (Str (rs_of w)) = Some rej
         /\ controls_of (snd (evaluateResume r w)) = failed (controls_of w)
         /\ textContent (dom (snd (evaluateResume r w)) errorMessage)
            = rejection_message rej)
      \/ (first_failure (Str (jd_of w)) (Str (rs_of w)) = None
          /\ controls_of (snd (evaluateResume r w))
             = enabled (revealed (submitted (evaluate_request (jd_of w) (rs_of w))
                                    (controls_of w))))
      \/ (exists e,
             first_failure (Str (jd_of w)) (Str (rs_of w)) = None
             /\ controls_of (snd (evaluateResume r w))
                = enabled (failed (noted e
                    (submitted (evaluate_request (jd_of w) (rs_of w)) (controls_of w))))
             /\ textContent (dom (snd (evaluateResume r w)) errorMessage)
                = shown_message e)).
Proof.
  destruct (first_failure (Str (jd_of w)) (Str (rs_of w))) as [rej|] eqn:Hv.
  - rewrite (evaluateResume_rejected r w rej Hv). split; [reflexivity|].
    left. exists rej. repeat split.
  - rewrite (evaluateResume_accepted r w Hv).
    destruct (begin_accepted w Hv) as (_ & Hc).
    pose proof (resume_outcome r (snd (evaluateResume_begin w))) as Ho.
    destruct (await_and_display r (snd (evaluateResume_begin w))) as [[[]|e] w2].
    + destruct Ho as (Hf & Ho). split; [exact Hf|]. right; left.
      split; [reflexivity|]. rewrite Ho, Hc. reflexivity.
    + destruct Ho as (Hf & Ho & Ht). split; [exact Hf|]. right; right.
      exists e. split; [reflexivity|]. rewrite Ho, Hc. split; [reflexivity|exact Ht].
Qed.

(** X5: an execution of [evaluateResume] with nothing else running while
    it awaits never throws, whatever the reply and the state of the page
    it starts from, and ends with the loading indicator hidden and
    exactly one of the error message and the results visible. *)
Theorem run_ends_with_exactly_one_panel (r : reply) (w : world) :
  let w' := snd (evaluateResume r w) in
  fst (evaluateResume r w) = Normal tt
  /\ hidden (dom w' loadingIndicator) = true
  /\ xorb (visible (dom w' errorMessage)) (visible (dom w' resultsSection)) = true.
Proof.
  intros w'. subst w'.
  destruct (run_ends r w) as (Hf & H). split; [exact Hf|].
  unfold visible.
  destruct (panels_of_controls (snd (evaluateResume r w))) as (_ & -> & ->).
  unfold hidden at 1.
  change (classList (dom (snd (evaluateResume r w)) errorMessage))
    with (error_classes (controls_of (snd (evaluateResume r w)))).
  destruct H as [(rej & _ & -> & _)|[(_ & ->)|(e & _ & -> & _)]];
    cbn [enabled failed revealed noted submitted error_classes results_classes
         loading_classes];
    rewrite ?contains_remove, ?contains_add; split; reflexivity.
Qed.

(** X6: when an execution with nothing else running while it awaits ends
    with the error message visible, the message is not empty: it is a
    validation message, the message of the error caught, or the
    fallback text. *)
Theorem visible_error_has_text (r : reply) (w : world) :
  let w' := snd (evaluateResume r w) in
  visible (dom w' errorMessage) = true ->
  textContent (dom w' errorMessage) <> [].
Proof.
  intros w'. subst w'. unfold visible, hidden.
  change (classList (dom (snd (evaluateResume r w)) errorMessage))
    with (error_classes (controls_of (snd (evaluateResume r w)))).
  destruct (run_ends r w) as (_ & [(rej & _ & _ & ->)|[(_ & ->)|(e & _ & _ & ->)]]).
  - intros _. apply rejection_message_nonempty.
  - cbn [enabled revealed submitted error_classes].
    rewrite contains_add. discriminate.
  - intros _. apply shown_message_nonempty.
Qed.

Lemma visible_error_has_text_witness :
  textContent (dom (snd (evaluateResume (FetchRejected (Error []))
                           (sample_world (letters 50) (letters 50)))) errorMessage)
  <> [].
Proof.
  apply (visible_error_has_text (FetchRejected (Error []))
           (sample_world (letters 50) (letters 50))).
  reflexivity.
Defined.

(** X7: what the error message shows after a failed request, whatever
    the state of the page when the reply arrives.  A body with a status
    that is not ok shows its [error] property when that is a non-empty
    string, and [An error occurred during evaluation] when the property
    is absent or falsy; a rejected [fetch] or a body that is not JSON
    shows the message of the error, and the connection fallback when
    that message is empty. *)
Theorem failure_text (w : world) :
  (forall data s,
      Json.get data "error" = Normal (Some (JStr s)) -> s <> [] ->
      textContent (dom (snd (evaluateResume_resume (Responded false data) w))
                     errorMessage) = s)
  /\ (forall data err,
         Json.get data "error" = Normal err -> Json.truthy err = false ->
         textContent (dom (snd (evaluateResume_resume (Responded false data) w))
                        errorMessage)
         = lit "An error occurred during evaluation")
  /\ (forall e ok,
         error_message e <> [] ->
         textContent (dom (snd (evaluateResume_resume (FetchRejected e) w))
                        errorMessage) = error_message e
         /\ textContent (dom (snd (evaluateResume_resume (JsonRejected ok e) w))
                           errorMessage) = error_message e)
  /\ (forall e ok,
         error_message e = [] ->
         textContent (dom (snd (evaluateResume_resume (FetchRejected e) w))
                        errorMessage)
         = lit "Failed to evaluate. Please check your connection and try again."
         /\ textContent (dom (snd (evaluateResume_resume (JsonRejected ok e) w))
                           errorMessage)
            = lit "Failed to evaluate. Please check your connection and try again.").
Proof.
  split; [|split; [|split]].
  - intros data s Hg Hs.
    pose proof (resume_outcome (Responded false data) w) as Ho.
    cbn [await_and_display negb] in Ho. unfold seq, lift in Ho.
    rewrite Hg in Ho. cbn [Json.truthy] in Ho.
    destruct s as [|c s]; [congruence|].
    destruct Ho as (_ & _ & ->). reflexivity.
  - intros data err Hg Ht.
    pose proof (resume_outcome (Responded false data) w) as Ho.
    cbn [await_and_display negb] in Ho. unfold seq, lift in Ho.
    rewrite Hg, Ht in Ho. destruct Ho as (_ & _ & ->). reflexivity.
  - intros e ok He.
    pose proof (resume_outcome (FetchRejected e) w) as (_ & _ & ->).
    pose proof (resume_outcome (JsonRejected ok e) w) as (_ & _ & ->).
    unfold shown_message. destruct (error_message e); [congruence|]. split; reflexivity.
  - intros e ok He.
    pose proof (resume_outcome (FetchRejected e) w) as (_ & _ & ->).
    pose proof (resume_outcome (JsonRejected ok e) w) as (_ & _ & ->).
    unfold shown_message. rewrite He. split; reflexivity.
Qed.

Lemma failure_text_witness :
  let w := sample_world (letters 50) (letters 50) in
  textContent (dom (snd (evaluateResume_resume
                           (Responded false (JObj [(lit "error", JStr (lit "Busy"))])) w))
                 errorMessage) = lit "Busy"
  /\ textContent (dom (snd (evaluateResume_resume (Responded false (JObj [])) w))
                    errorMessage) = lit "An error occurred during evaluation".
Proof.
  intros w. destruct (failure_text w) as (H1 & H2 & _). split.
  - apply (H1 (JObj [(lit "error", JStr (lit "Busy"))]) (lit "Busy"));
      [reflexivity | discriminate].
  - apply (H2 (JObj []) None); reflexivity.
Defined.

(** ** What the user typed *)

Lemma keeps_input_ret {A} (a : A) : keeps_input (ret a).
Proof. intros w i; reflexivity. Qed.

Lemma keeps_input_throw {A} (e : error) : keeps_input (@throw A e).
Proof. intros w i; reflexivity. Qed.

Lemma keeps_input_lift {A} (c : completion A) : keeps_input (lift c).
Proof. intros w i; reflexivity. Qed.

Lemma keeps_input_read {A} (f : page -> A) : keeps_input (read f).
Proof. intros w i; reflexivity. Qed.

Lemma keeps_input_schedule (t : task) : keeps_input (schedule t).
Proof. intros w i; reflexivity. Qed.

Lemma keeps_input_console_error (e : error) : keeps_input (console_error e).
Proof. intros w i; reflexivity. Qed.

Lemma keeps_input_fetch (r : request) : keeps_input (fetch r).
Proof. intros w i; reflexivity. Qed.

Lemma keeps_input_seq {A B} (c : M A) (k : A -> M B) :
  keeps_input c -> (forall a, keeps_input (k a)) -> keeps_input (seq c k).
Proof.
  intros Hc Hk w i. unfold seq.
  specialize (Hc w i). destruct (c w) as [[a|e] w1]; simpl in *.
  - rewrite (Hk a w1 i). exact Hc.
  - exact Hc.
Qed.

Lemma keeps_input_update (j : id) (f : element -> element) :
  (forall e, value (f e) = value e) -> keeps_input (on_page (update j f)).
Proof.
  intros Hf w i. unfold on_page, update; simpl.
  destruct (id_eq_dec j i); [apply Hf | reflexivity].
Qed.

Lemma keeps_input_forEach (name : string) (items : option json) (f : json -> M unit) :
  (forall x, keeps_input (f x)) -> keeps_input (forEach name items f).
Proof.
  intros Hf. unfold forEach.
  destruct items as [[| | | |l|]|]; try apply keeps_input_throw.
  induction l as [|x l IH]; simpl.
  - apply keeps_input_ret.
  - apply keeps_input_seq; [apply Hf | intros _; exact IH].
Qed.

Lemma keeps_input_try (body : M unit) (handler : error -> M unit) (final : M unit) :
  keeps_input body -> (forall e, keeps_input (handler e)) -> keeps_input final ->
  keeps_input (try_catch_finally body handler final).
Proof.
  intros Hb Hh Hf w i. unfold try_catch_finally.
  specialize (Hb w i). destruct (body w) as [[[]|e] w1]; simpl in Hb.
  - specialize (Hf w1 i). destruct (final w1) as [[[]|e'] w2]; simpl in *; congruence.
  - specialize (Hh e w1 i). destruct (handler e w1) as [r w2]; simpl in Hh.
    specialize (Hf w2 i). destruct (final w2) as [[[]|e'] w3]; simpl in *; congruence.
Qed.

Ltac keeps_input_step :=
  first
    [ apply keeps_input_ret | apply keeps_input_throw | apply keeps_input_lift
    | apply keeps_input_read | apply keeps_input_schedule
    | apply keeps_input_console_error | apply keeps_input_fetch
    | apply keeps_input_update; intros ?; reflexivity
    | apply keeps_input_forEach; intros ?
    | apply keeps_input_seq; [|intros ?] ].

Lemma keeps_input_showError (m : jsstring) : keeps_input (showError m).
Proof. unfold showError, classList_add, classList_remove. repeat keeps_input_step. Qed.

Lemma keeps_input_showLoading : keeps_input showLoading.
Proof.
  unfold showLoading, hideError, classList_add, classList_remove.
  repeat keeps_input_step.
Qed.

Lemma keeps_input_displayResults (data : json) : keeps_input (displayResults data).
Proof.
  unfold displayResults, animateScore, createListItems, createSuggestionItems,
    hideLoading, classList_add, classList_remove.
  repeat keeps_input_step.
  - intros w i; reflexivity.
  - destruct (is_string _ "Hire"); [repeat keeps_input_step|].
    destruct (is_string _ "Hold"); [repeat keeps_input_step|].
    destruct (is_string _ "Reject"); repeat keeps_input_step.
Qed.

Lemma keeps_input_begin : keeps_input evaluateResume_begin.
Proof.
  unfold evaluateResume_begin.
  do 3 (apply keeps_input_seq; [repeat keeps_input_step | intros ?]).
  destruct (negb (valid _)).
  - apply keeps_input_seq; [apply keeps_input_showError | intros _; apply keeps_input_ret].
  - apply keeps_input_seq; [apply keeps_input_showLoading | intros _].
    repeat keeps_input_step.
Qed.

Lemma keeps_input_resume (r : reply) : keeps_input (evaluateResume_resume r).
Proof.
  unfold evaluateResume_resume. apply keeps_input_try.
  - destruct r as [e|ok e|ok data]; simpl; try apply keeps_input_throw.
    destruct ok; simpl; [apply keeps_input_displayResults|].
    repeat keeps_input_step.
  - intros e. unfold on_failure.
    apply keeps_input_seq; [apply keeps_input_console_error | intros _].
    apply keeps_input_showError.
  - unfold enable_button. repeat keeps_input_step.
Qed.

(** X8: no part of [evaluateResume] writes the [value] of an element:
    after the part before the first [await], after the part after it,
    and so after a whole execution, both text areas hold what the user
    typed, whether the input was rejected, the request failed or the
    result was displayed. *)
Theorem evaluateResume_keeps_input (r : reply) (w : world) (i : id) :
  value (dom (snd (evaluateResume_begin w)) i) = value (dom w i)
  /\ value (dom (snd (evaluateResume_resume r w)) i) = value (dom w i)
  /\ value (dom (snd (evaluateResume r w)) i) = value (dom w i).
Proof.
  split; [apply keeps_input_begin|]. split; [apply keeps_input_resume|].
  unfold evaluateResume.
  apply (keeps_input_seq evaluateResume_begin); [apply keeps_input_begin|].
  intros [req|]; [apply keeps_input_resume | apply keeps_input_ret].
Qed.

(** ** Rendering a result *)

Lemma seq_normal {A B} (c : M A) (k : A -> M B) (w w1 : world) (a : A) :
  c w = (Normal a, w1) -> seq c k w = k a w1.
Proof. intros H. unfold seq. rewrite H. reflexivity. Qed.

Lemma seq_throw {A B} (c : M A) (k : A -> M B) (w w1 : world) (e : error) :
  c w = (Throw e, w1) -> seq c k w = (Throw e, w1).
Proof. intros H. unfold seq. rewrite H. reflexivity. Qed.

Lemma paint_paint (f g : page -> page) (w : world) :
  paint g (paint f w) = paint (fun p => g (f p)) w.
Proof. reflexivity. Qed.

Lemma append_all (parent : id) (mk : json -> node) (l : list json) :
  forall w,
    fold_right
      (fun item rest => on_page (update parent (appendChild (mk item))) ;; rest)
      (ret tt) l w
    = (Normal tt,
       paint (fun p => fold_left
                         (fun q item => update parent (appendChild (mk item)) q) l p) w).
Proof.
  induction l as [|x l IH]; intros w.
  - destruct w; reflexivity.
  - cbn [fold_right].
    rewrite (seq_normal (on_page _) _ w _ tt eq_refl). rewrite IH. reflexivity.
Qed.

Lemma createListItems_array (l : list json) (parent : id) (w : world) :
  createListItems (Some (JArr l)) parent w
  = (Normal tt, paint (list_page parent li_of l) w).
Proof.
  unfold createListItems. rewrite (seq_normal (on_page _) _ w _ tt eq_refl).
  unfold forEach. rewrite (append_all parent li_of l). reflexivity.
Qed.

Lemma createSuggestionItems_array (l : list json) (parent : id) (w : world) :
  createSuggestionItems (Some (JArr l)) parent w
  = (Normal tt, paint (list_page parent div_of l) w).
Proof.
  unfold createSuggestionItems. rewrite (seq_normal (on_page _) _ w _ tt eq_refl).
  unfold forEach. rewrite (append_all parent div_of l). reflexivity.
Qed.

Lemma appended_other (parent j : id) (mk : json -> node) (l : list json) :
  parent <> j ->
  forall p, fold_left (fun q item => update parent (appendChild (mk item)) q) l p j
            = p j.
Proof.
  intros Hj. induction l as [|x l IH]; intros p; simpl; [reflexivity|].
  rewrite IH. unfold update. destruct (id_eq_dec parent j); [contradiction|reflexivity].
Qed.

Lemma appended_at (parent : id) (mk : json -> node) (l : list json) :
  forall p,
    let e := fold_left (fun q item => update parent (appendChild (mk item)) q) l p
               parent in
    children e = children (p parent) ++ map mk l
    /\ textContent e = textContent (p parent)
    /\ classList e = classList (p parent)
    /\ value e = value (p parent)
    /\ disabled e = disabled (p parent)
    /\ color e = color (p parent).
Proof.
  induction l as [|x l IH]; intros p; cbn zeta.
  - simpl. rewrite app_nil_r. repeat split.
  - cbn [fold_left map].
    destruct (IH (update parent (appendChild (mk x)) p)) as (H1 & H2 & H3 & H4 & H5 & H6).
    rewrite H1, H2, H3, H4, H5, H6. unfold update.
    destruct (id_eq_dec parent parent); [|contradiction].
    cbn. rewrite <- app_assoc. repeat split.
Qed.

Lemma list_page_other (parent j : id) (mk : json -> node) (l : list json) (p : page) :
  parent <> j -> list_page parent mk l p j = p j.
Proof.
  intros Hj. unfold list_page. rewrite (appended_other parent j mk l Hj).
  unfold update. destruct (id_eq_dec parent j); [contradiction|reflexivity].
Qed.

Lemma list_page_at (parent : id) (mk : json -> node) (l : list json) (p : page) :
  children (list_page parent mk l p parent) = map mk l
  /\ textContent (list_page parent mk l p parent) = []
  /\ classList (list_page parent mk l p parent) = classList (p parent)
  /\ value (list_page parent mk l p parent) = value (p parent)
  /\ disabled (list_page parent mk l p parent) = disabled (p parent)
  /\ color (list_page parent mk l p parent) = color (p parent).
Proof.
  unfold list_page.
  destruct (appended_at parent mk l (update parent clear_innerHTML p))
    as (H1 & H2 & H3 & H4 & H5 & H6).
  rewrite H1, H2, H3, H4, H5, H6. unfold update.
  destruct (id_eq_dec parent parent); [|contradiction]. repeat split.
Qed.

(** X9: given an array, [createListItems] and [createSuggestionItems]
    complete and leave in the list element exactly one node per item, in
    the order of the array, with the item as text ([li] nodes, [div]
    nodes of class [suggestion-item]); what the element held before is
    gone, its classes stay, and no other element changes. *)
Theorem list_items_replace_content (l : list json) (parent : id) (w : world) :
  (let w' := snd (createListItems (Some (JArr l)) parent w) in
   fst (createListItems (Some (JArr l)) parent w) = Normal tt
   /\ children (dom w' parent) = map li_of l
   /\ classList (dom w' parent) = classList (dom w parent)
   /\ forall j, parent <> j -> dom w' j = dom w j)
  /\ (let w' := snd (createSuggestionItems (Some (JArr l)) parent w) in
      fst (createSuggestionItems (Some (JArr l)) parent w) = Normal tt
      /\ children (dom w' parent) = map div_of l
      /\ classList (dom w' parent) = classList (dom w parent)
      /\ forall j, parent <> j -> dom w' j = dom w j).
Proof.
  rewrite createListItems_array, createSuggestionItems_array. cbn [fst snd].
  split; (split; [reflexivity|]);
    change (dom (paint ?f w)) with (f (dom w));
    (split; [apply list_page_at|]);
    (split; [apply list_page_at|]);
    intros j Hj; apply list_page_other; exact Hj.
Qed.

Lemma createListItems_not_array (items : option json) (parent : id) (w : world) :
  is_array items = false ->
  exists e, createListItems items parent w
            = (Throw e, paint (update parent clear_innerHTML) w).
Proof.
  intros H. unfold createListItems. rewrite (seq_normal (on_page _) _ w _ tt eq_refl).
  destruct items as [[| | | |l|]|]; try discriminate; eexists; reflexivity.
Qed.

Lemma createSuggestionItems_not_array (items : option json) (parent : id) (w : world) :
  is_array items = false ->
  exists e, createSuggestionItems items parent w
            = (Throw e, paint (update parent clear_innerHTML) w).
Proof.
  intros H. unfold createSuggestionItems. rewrite (seq_normal (on_page _) _ w _ tt eq_refl).
  destruct items as [[| | | |l|]|]; try discriminate; eexists; reflexivity.
Qed.

(** X10: given anything but an array ([undefined], [null], a string, a
    number, an object), [createListItems] and [createSuggestionItems]
    throw, after having emptied the list element: the old items are gone
    and none is added. *)
Theorem list_items_of_non_array (items : option json) (parent : id) (w : world) :
  is_array items = false ->
  (exists e, fst (createListItems items parent w) = Throw e)
  /\ children (dom (snd (createListItems items parent w)) parent) = []
  /\ (exists e, fst (createSuggestionItems items parent w) = Throw e)
  /\ children (dom (snd (createSuggestionItems items parent w)) parent) = [].
Proof.
  intros H.
  destruct (createListItems_not_array items parent w H) as (e1 & ->).
  destruct (createSuggestionItems_not_array items parent w H) as (e2 & ->).
  cbn [fst snd]. change (dom (paint ?f w)) with (f (dom w)).
  unfold update. destruct (id_eq_dec parent parent); [|contradiction].
  repeat split; eexists; reflexivity.
Qed.

Lemma list_items_of_non_array_witness :
  children (dom (snd (createListItems (Some (JStr (lit "python, flask"))) strengthsList
                        (snd (createListItems (Some (JArr [JNum 1; JNum 2]))
                                strengthsList (sample_world [] []))))) strengthsList)
  = [].
Proof.
  apply (list_items_of_non_array (Some (JStr (lit "python, flask"))) strengthsList).
  reflexivity.
Defined.

Lemma createListItems_is_array (items : option json) (parent : id) (w : world) :
  is_array items = true ->
  createListItems items parent w
  = (Normal tt, paint (list_page parent li_of (array_items items)) w).
Proof.
  destruct items as [[| | | |l|]|]; try discriminate. intros _.
  apply createListItems_array.
Qed.

Lemma createSuggestionItems_is_array (items : option json) (parent : id) (w : world) :
  is_array items = true ->
  createSuggestionItems items parent w
  = (Normal tt, paint (list_page parent div_of (array_items items)) w).
Proof.
  destruct items as [[| | | |l|]|]; try discriminate. intros _.
  apply createSuggestionItems_array.
Qed.

Lemma renderable_runs (fields : list (jsstring * json)) (w : world) :
  let data := JObj fields in
  renderable data = true ->
  displayResults data w
  = (Normal tt,
     snd (schedule (Timer 300 ScrollToResults)
       (snd (schedule (Timer 100 RefreshAnimations)
         (paint (fun p =>
            classList_remove resultsSection "hidden"
              (classList_add loadingIndicator "hidden"
                (list_page suggestionsList div_of
                   (array_items (property data "improvement_suggestions"))
                  (list_page reasonsAgainstList li_of
                     (array_items (property data "reasons_against"))
                    (list_page reasonsForList li_of
                       (array_items (property data "reasons_for"))
                      (list_page gapsList li_of (array_items (property data "gaps"))
                        (list_page strengthsList li_of
                           (array_items (property data "strengths"))
                          (badge_page (property data "verdict") p))))))))
            (snd (schedule (Frame (property data "match_score") (now w)) w))))))).
Proof.
  intros data Hr. unfold renderable in Hr. subst data.
  apply andb_true_iff in Hr. destruct Hr as [Hr H5].
  apply andb_true_iff in Hr. destruct Hr as [Hr H4].
  apply andb_true_iff in Hr. destruct Hr as [Hr H3].
  apply andb_true_iff in Hr. destruct Hr as [H1 H2].
  unfold displayResults.
  change (Json.get (JObj ?f) ?k) with (Normal (property (JObj f) k)).
  rewrite (seq_normal (lift _) _ w _ _ eq_refl).
  rewrite (seq_normal (animateScore _) _ w _ tt eq_refl).
  rewrite (seq_normal (lift _) _ _ _ _ eq_refl).
  rewrite (seq_normal (on_page _) _ _ _ tt eq_refl).
  rewrite (seq_normal (on_page _) _ _ _ tt eq_refl).
  unfold badge_page.
  destruct (is_string _ "Hire");
    [|destruct (is_string _ "Hold"); [|destruct (is_string _ "Reject")]];
    (first [ rewrite (seq_normal (on_page _) _ _ _ tt eq_refl)
           | rewrite (seq_normal (ret tt) _ _ _ tt eq_refl) ]);
    rewrite (seq_normal (lift _) _ _ _ _ eq_refl);
    rewrite (seq_normal _ _ _ _ tt (createListItems_is_array _ _ _ H1));
    rewrite (seq_normal (lift _) _ _ _ _ eq_refl);
    rewrite (seq_normal _ _ _ _ tt (createListItems_is_array _ _ _ H2));
    rewrite (seq_normal (lift _) _ _ _ _ eq_refl);
    rewrite (seq_normal _ _ _ _ tt (createListItems_is_array _ _ _ H3));
    rewrite (seq_normal (lift _) _ _ _ _ eq_refl);
    rewrite (seq_normal _ _ _ _ tt (createListItems_is_array _ _ _ H4));
    rewrite (seq_normal (lift _) _ _ _ _ eq_refl);
    rewrite (seq_normal _ _ _ _ tt (createSuggestionItems_is_array _ _ _ H5));
    reflexivity.
Qed.

Lemma update_other (i j : id) (f : element -> element) (p : page) :
  i <> j -> update i f p j = p j.
Proof. intros H. unfold update. destruct (id_eq_dec i j); [contradiction|reflexivity]. Qed.

Lemma badge_page_at (verdict : option json) (p : page) :
  textContent (badge_page verdict p verdictBadge) = Json.toText verdict
  /\ classList (badge_page verdict p verdictBadge) = badge_classes verdict.
Proof.
  unfold badge_page, badge_classes.
  destruct (is_string verdict "Hire"); [split; reflexivity|].
  destruct (is_string verdict "Hold"); [split; reflexivity|].
  destruct (is_string verdict "Reject"); split; reflexivity.
Qed.

Lemma badge_page_other (verdict : option json) (p : page) (j : id) :
  verdictBadge <> j -> badge_page verdict p j = p j.
Proof.
  intros H. unfold badge_page, classList_add.
  destruct (is_string verdict "Hire"); [rewrite !update_other by exact H; reflexivity|].
  destruct (is_string verdict "Hold"); [rewrite !update_other by exact H; reflexivity|].
  destruct (is_string verdict "Reject"); rewrite !update_other by exact H; reflexivity.
Qed.

Lemma renderable_shows (data : json) (w : world) :
  renderable data = true ->
  fst (displayResults data w) = Normal tt
  /\ shows data w (snd (displayResults data w)).
Proof.
  intros Hr. destruct data as [| | | | |fields]; try discriminate.
  rewrite (renderable_runs fields w Hr). split; [reflexivity|].
  cbn [snd]. unfold shows, schedule, paint, on_page. cbn [snd dom scheduled now].
  unfold classList_remove, classList_add.
  repeat split.
  - rewrite !update_other by discriminate.
    rewrite !list_page_other by discriminate. apply list_page_at.
  - rewrite !update_other by discriminate.
    rewrite !list_page_other by discriminate. apply list_page_at.
  - rewrite !update_other by discriminate.
    rewrite !list_page_other by discriminate. apply list_page_at.
  - rewrite !update_other by discriminate.
    rewrite !list_page_other by discriminate. apply list_page_at.
  - rewrite !update_other by discriminate. apply list_page_at.
  - rewrite !update_other by discriminate.
    rewrite !list_page_other by discriminate. apply badge_page_at.
  - rewrite !update_other by discriminate.
    rewrite !list_page_other by discriminate. apply badge_page_at.
  - rewrite <- !app_assoc. reflexivity.
Qed.

Lemma not_renderable_throws (data : json) (w : world) :
  renderable data = false -> exists e, fst (displayResults data w) = Throw e.
Proof.
  intros Hr. destruct data as [| | | | |fields]; try (eexists; reflexivity).
  unfold renderable in Hr. unfold displayResults.
  change (Json.get (JObj ?f) ?k) with (Normal (property (JObj f) k)).
  rewrite (seq_normal (lift _) _ w _ _ eq_refl).
  rewrite (seq_normal (animateScore _) _ w _ tt eq_refl).
  rewrite (seq_normal (lift _) _ _ _ _ eq_refl).
  rewrite (seq_normal (on_page _) _ _ _ tt eq_refl).
  rewrite (seq_normal (on_page _) _ _ _ tt eq_refl).
  destruct (is_string _ "Hire");
    [|destruct (is_string _ "Hold"); [|destruct (is_string _ "Reject")]];
    (first [ rewrite (seq_normal (on_page _) _ _ _ tt eq_refl)
           | rewrite (seq_normal (ret tt) _ _ _ tt eq_refl) ]);
    rewrite (seq_normal (lift _) _ _ _ _ eq_refl);
    (destruct (is_array (property (JObj fields) "strengths")) eqn:H1;
     [ rewrite (seq_normal _ _ _ _ tt (createListItems_is_array _ _ _ H1))
     | match goal with
       | |- context [seq (createListItems ?i ?p) ?k ?w0] =>
           destruct (createListItems_not_array i p w0 H1) as (e & He);
           rewrite (seq_throw _ _ _ _ _ He); exists e; reflexivity
       end ]);
    rewrite (seq_normal (lift _) _ _ _ _ eq_refl);
    (destruct (is_array (property (JObj fields) "gaps")) eqn:H2;
     [ rewrite (seq_normal _ _ _ _ tt (createListItems_is_array _ _ _ H2))
     | match goal with
       | |- context [seq (createListItems ?i ?p) ?k ?w0] =>
           destruct (createListItems_not_array i p w0 H2) as (e & He);
           rewrite (seq_throw _ _ _ _ _ He); exists e; reflexivity
       end ]);
    rewrite (seq_normal (lift _) _ _ _ _ eq_refl);
    (destruct (is_array (property (JObj fields) "reasons_for")) eqn:H3;
     [ rewrite (seq_normal _ _ _ _ tt (createListItems_is_array _ _ _ H3))
     | match goal with
       | |- context [seq (createListItems ?i ?p) ?k ?w0] =>
           destruct (createListItems_not_array i p w0 H3) as (e & He);
           rewrite (seq_throw _ _ _ _ _ He); exists e; reflexivity
       end ]);
    rewrite (seq_normal (lift _) _ _ _ _ eq_refl);
    (destruct (is_array (property (JObj fields) "reasons_against")) eqn:H4;
     [ rewrite (seq_normal _ _ _ _ tt (createListItems_is_array _ _ _ H4))
     | match goal with
       | |- context [seq (createListItems ?i ?p) ?k ?w0] =>
           destruct (createListItems_not_array i p w0 H4) as (e & He);
           rewrite (seq_throw _ _ _ _ _ He); exists e; reflexivity
       end ]);
    rewrite (seq_normal (lift _) _ _ _ _ eq_refl);
    (destruct (is_array (property (JObj fields) "improvement_suggestions")) eqn:H5;
     [ discriminate
     | match goal with
       | |- context [seq (createSuggestionItems ?i ?p) ?k ?w0] =>
           destruct (createSuggestionItems_not_array i p w0 H5) as (e & He);
           rewrite (seq_throw _ _ _ _ _ He); exists e; reflexivity
       end ]).
Qed.

(** X11: [displayResults] completes exactly for the bodies that are an
    object whose five list properties are arrays, and throws for every
    other body.  When it completes, each list holds exactly the items of
    its array, in order, whatever it held before; the badge shows the
    verdict with the class [verdict-badge] and, for [Hire], [Hold] and
    [Reject] only, the class of that verdict; the results are visible
    and the loading indicator hidden; one animation frame and the timers
    of 100 and 300 ms are requested. *)
Theorem displayResults_renders (data : json) (w : world) :
  let w' := snd (displayResults data w) in
  (fst (displayResults data w) = Normal tt <-> renderable data = true)
  /\ (renderable data = true ->
      shows data w w'
      /\ visible (dom w' resultsSection) = true
      /\ hidden (dom w' loadingIndicator) = true).
Proof.
  intros w'. subst w'. split.
  - split.
    + intros Hf. destruct (renderable data) eqn:Hr; [reflexivity|].
      destruct (not_renderable_throws data w Hr) as (e & He). congruence.
    + intros Hr. apply renderable_shows. exact Hr.
  - intros Hr. destruct (renderable_shows data w Hr) as (Hf & Hs).
    split; [exact Hs|].
    pose proof (displayResults_runs data (controls_of w) w eq_refl) as Hc.
    destruct (displayResults data w) as [[[]|e] w1]; [|discriminate].
    cbn [snd]. unfold visible.
    destruct (panels_of_controls w1) as (_ & -> & ->). rewrite Hc.
    cbn [revealed results_classes loading_classes].
    rewrite contains_remove, contains_add. split; reflexivity.
Qed.

Lemma displayResults_renders_witness :
  let w' := snd (displayResults sample_result
                   (snd (displayResults sample_result (sample_world [] [])))) in
  children (dom w' strengthsList) = [li_of (JStr (lit "python"))]
  /\ classList (dom w' verdictBadge) = [lit "verdict-badge"; lit "hire"].
Proof.
  intros w'.
  destruct (proj2 (displayResults_renders sample_result
                     (snd (displayResults sample_result (sample_world [] []))))
              eq_refl) as ((H1 & _ & _ & _ & _ & _ & H7 & _) & _).
  split; [exact H1 | exact H7].
Defined.

(** X12: an execution that passes validation and receives an ok response
    ends, when the body is renderable, with the result on the page, the
    results visible, the error message and the loading indicator hidden,
    the button enabled, one request sent and nothing logged; when the
    body is not renderable it ends with the error message visible, the
    results hidden and the error logged, although the status was ok. *)
Theorem ok_response_is_displayed_or_reported (data : json) (w : world) :
  first_failure (Str (jd_of w)) (Str (rs_of w)) = None ->
  let w' := snd (evaluateResume (Responded true data) w) in
  let sent_now := submitted (evaluate_request (jd_of w) (rs_of w)) (controls_of w) in
  (renderable data = true ->
   shows data (snd (evaluateResume_begin w)) w'
   /\ controls_of w' = enabled (revealed sent_now)
   /\ visible (dom w' resultsSection) = true
   /\ hidden (dom w' errorMessage) = true
   /\ hidden (dom w' loadingIndicator) = true)
  /\ (renderable data = false ->
      (exists e, controls_of w' = enabled (failed (noted e sent_now)))
      /\ visible (dom w' errorMessage) = true
      /\ hidden (dom w' resultsSection) = true
      /\ hidden (dom w' loadingIndicator) = true).
Proof.
  intros Hv w' sent_now. subst w' sent_now.
  rewrite (evaluateResume_accepted _ w Hv).
  destruct (begin_accepted w Hv) as (_ & Hc).
  set (w1 := snd (evaluateResume_begin w)) in *.
  pose proof (resume_outcome (Responded true data) w1) as Ho.
  cbn [await_and_display negb] in Ho.
  split; intros Hr.
  - destruct (renderable_shows data w1 Hr) as (Hf & Hs).
    destruct (displayResults data w1) as [[[]|e] w2] eqn:Hd; [|discriminate].
    destruct Ho as (_ & Ho). cbn [snd] in Hs.
    assert (Hw : evaluateResume_resume (Responded true data) w1
                 = (Normal tt, snd (enable_button w2))).
    { unfold evaluateResume_resume.
      apply (try_catch_finally_normal _ _ _ w1 w2 _ Hd (enable_completes w2)). }
    split.
    { rewrite Hw. cbn [snd]. unfold shows in *.
      destruct Hs as (S1 & S2 & S3 & S4 & S5 & S6 & S7 & S8).
      repeat split; assumption. }
    rewrite Ho, Hc. split; [reflexivity|].
    unfold visible.
    destruct (panels_of_controls (snd (evaluateResume_resume (Responded true data) w1)))
      as (_ & -> & ->).
    unfold hidden.
    change (classList (dom (snd (evaluateResume_resume (Responded true data) w1))
                         errorMessage))
      with (error_classes (controls_of
              (snd (evaluateResume_resume (Responded true data) w1)))).
    rewrite Ho, Hc.
    cbn [enabled revealed submitted error_classes results_classes loading_classes].
    rewrite contains_remove, !contains_add. repeat split.
  - destruct (not_renderable_throws data w1 Hr) as (e & He).
    destruct (displayResults data w1) as [[[]|e'] w2]; [discriminate|].
    destruct Ho as (_ & Ho & _).
    destruct (failed_panels _ _ Ho) as (P1 & P2 & P3 & _).
    split; [exists e'; rewrite Ho, Hc; reflexivity|].
    repeat split; assumption.
Qed.

Lemma ok_response_is_displayed_or_reported_witness :
  let w' := snd (evaluateResume (Responded true sample_result)
                   (sample_world (letters 50) (letters 50))) in
  visible (dom w' resultsSection) = true
  /\ hidden (dom w' errorMessage) = true
  /\ hidden (dom w' loadingIndicator) = true.
Proof.
  intros w'.
  destruct (proj1 (ok_response_is_displayed_or_reported sample_result
                     (sample_world (letters 50) (letters 50)) eq_refl) eq_refl)
    as (_ & _ & H).
  exact H.
Defined.
(*END*)

(** ** The theme *)

Lemma JsString_eqb_neq (a b : jsstring) : a <> b -> JsString.eqb a b = false.
Proof.
  intros H. destruct (JsString.eqb a b) eqn:E; [|reflexivity].
  apply JsString_eqb_eq in E. contradiction.
Qed.

Lemma contains_add_other (tok tok' : jsstring) (l : list jsstring) :
  tok <> tok' ->
  ClassList.contains tok (ClassList.add tok' l) = ClassList.contains tok l.
Proof.
  intros H. unfold ClassList.add.
  destruct (ClassList.contains tok' l); [reflexivity|].
  unfold ClassList.contains. rewrite existsb_app. simpl.
  rewrite (JsString_eqb_neq tok tok' H). rewrite !orb_false_r. reflexivity.
Qed.

Lemma contains_remove_other (tok tok' : jsstring) (l : list jsstring) :
  tok <> tok' ->
  ClassList.contains tok (ClassList.remove tok' l) = ClassList.contains tok l.
Proof.
  intros H. unfold ClassList.contains, ClassList.remove.
  induction l as [|x l IH]; simpl; [reflexivity|].
  destruct (JsString.eqb tok' x) eqn:E; simpl.
  - apply JsString_eqb_eq in E. subst x.
    rewrite (JsString_eqb_neq tok tok' H). exact IH.
  - rewrite IH. reflexivity.
Qed.

Lemma getItem_setItem (k v : jsstring) (st : Storage.t) :
  Storage.getItem k (Storage.setItem k v st) = Some v.
Proof.
  induction st as [|[k' v'] st IH]; simpl.
  - rewrite JsString_eqb_refl. reflexivity.
  - destruct (JsString.eqb k k') eqn:E; simpl.
    + rewrite JsString_eqb_refl. reflexivity.
    + rewrite E. exact IH.
Qed.

Lemma dark_applyTheme (theme : jsstring) (t : theme_world) :
  dark (applyTheme theme t) = JsString.eqb theme (lit "dark").
Proof.
  unfold dark, applyTheme, classList_toggle. simpl body_classes.
  destruct (JsString.eqb theme (lit "dark")).
  - apply contains_add.
  - apply contains_remove.
Qed.

(** X13: after [applyTheme] the body has the class [dark] exactly when
    the theme is the string [dark] (any other string, [light] or not,
    gives the light theme); the other classes of the body stay; a page
    with a toggle gets the label of the other mode ([Light mode] when
    dark, [Dark mode] otherwise) and [aria-pressed] set to [true] or
    [false]; a page without a toggle gets none; storage is untouched. *)
Theorem applyTheme_sets_class_and_label (theme : jsstring) (t : theme_world) :
  let t' := applyTheme theme t in
  let isDark := JsString.eqb theme (lit "dark") in
  dark t' = isDark
  /\ (forall tok, tok <> lit "dark" ->
        ClassList.contains tok (body_classes t')
        = ClassList.contains tok (body_classes t))
  /\ match themeToggle t, themeToggle t' with
     | Some _, Some b =>
         toggle_text b = (if isDark then lit "Light mode" else lit "Dark mode")
         /\ aria_pressed b = Some (if isDark then lit "true" else lit "false")
     | None, None => True
     | _, _ => False
     end
  /\ localStorage t' = localStorage t.
Proof.
  cbv zeta. split; [apply dark_applyTheme|]. split.
  - intros tok Htok. unfold applyTheme, classList_toggle. simpl body_classes.
    destruct (JsString.eqb theme (lit "dark")).
    + apply contains_add_other. exact Htok.
    + apply contains_remove_other. exact Htok.
  - destruct t as [bc [b|] st mm]; unfold applyTheme; simpl; repeat split.
Qed.

Lemma dark_toggle_click (t : theme_world) :
  themeToggle t <> None -> dark (toggle_click t) = negb (dark t).
Proof.
  intros H. unfold toggle_click. destruct (themeToggle t) eqn:E; [|congruence].
  rewrite dark_applyTheme. unfold dark. destruct (ClassList.contains _ _); reflexivity.
Qed.

Lemma toggle_click_keeps_toggle (t : theme_world) :
  themeToggle t <> None -> themeToggle (toggle_click t) <> None.
Proof.
  intros H. unfold toggle_click. destruct (themeToggle t) eqn:E; [|congruence].
  unfold applyTheme. simpl. discriminate.
Qed.

Lemma stored_after_toggle_click (t : theme_world) :
  themeToggle t <> None ->
  Storage.getItem THEME_STORAGE_KEY (localStorage (toggle_click t))
  = Some (if dark t then lit "light" else lit "dark").
Proof.
  intros H. unfold toggle_click. destruct (themeToggle t) eqn:E; [|congruence].
  unfold applyTheme. simpl localStorage. rewrite getItem_setItem. reflexivity.
Qed.

(** X14: on a page with a theme toggle, a click switches the theme: the
    body is dark after it exactly when it was not before, and the theme
    now shown is the one stored under [rjd-theme]; a second click brings
    the first theme back. *)
Theorem toggle_click_switches_theme (t : theme_world) :
  themeToggle t <> None ->
  dark (toggle_click t) = negb (dark t)
  /\ Storage.getItem THEME_STORAGE_KEY (localStorage (toggle_click t))
     = Some (if dark (toggle_click t) then lit "dark" else lit "light")
  /\ dark (toggle_click (toggle_click t)) = dark t.
Proof.
  intros H. split; [apply dark_toggle_click; exact H|]. split.
  - rewrite (stored_after_toggle_click t H), (dark_toggle_click t H).
    destruct (dark t); reflexivity.
  - rewrite (dark_toggle_click _ (toggle_click_keeps_toggle t H)).
    rewrite (dark_toggle_click t H). apply negb_involutive.
Qed.

Lemma toggle_click_switches_theme_witness :
  dark (toggle_click sample_theme) = true
  /\ dark (toggle_click (toggle_click sample_theme)) = false.
Proof.
  destruct (toggle_click_switches_theme sample_theme) as (H1 & _ & H3).
  - discriminate.
  - split; [exact H1 | exact H3].
Defined.

Lemma dark_initTheme_stored (s : jsstring) (t : theme_world) :
  Storage.getItem THEME_STORAGE_KEY (localStorage t) = Some s -> s <> [] ->
  dark (initTheme t) = JsString.eqb s (lit "dark").
Proof.
  intros Hs Hne. unfold initTheme. rewrite Hs.
  destruct s as [|c s]; [congruence|]. apply dark_applyTheme.
Qed.

(** X15: [initTheme] shows the stored theme when one is stored, whatever
    the system prefers: after a click on the toggle, a later load of the
    page with the same storage shows the theme the click chose.  With
    nothing stored, or the empty string, the theme is dark exactly when
    [prefers-color-scheme: dark] matches, and light where the browser
    has no [matchMedia]; a stored string other than [dark] gives the
    light theme. *)
Theorem initTheme_restores_choice (t : theme_world) :
  (forall later : theme_world,
      themeToggle t <> None ->
      localStorage later = localStorage (toggle_click t) ->
      dark (initTheme later) = dark (toggle_click t))
  /\ (forall s, Storage.getItem THEME_STORAGE_KEY (localStorage t) = Some s ->
                s <> [] -> dark (initTheme t) = JsString.eqb s (lit "dark"))
  /\ (Storage.getItem THEME_STORAGE_KEY (localStorage t) = None
      \/ Storage.getItem THEME_STORAGE_KEY (localStorage t) = Some [] ->
      dark (initTheme t) = match matchMedia t with Some b => b | None => false end).
Proof.
  split; [|split].
  - intros later H Hl.
    pose proof (stored_after_toggle_click t H) as Hs. rewrite <- Hl in Hs.
    rewrite (dark_initTheme_stored _ later Hs).
    + rewrite (dark_toggle_click t H). destruct (dark t); reflexivity.
    + destruct (dark t); discriminate.
  - intros s Hs Hne. exact (dark_initTheme_stored s t Hs Hne).
  - intros H. unfold initTheme.
    destruct H as [-> | ->]; cbn [JsString.length List.length Nat.eqb negb];
      rewrite dark_applyTheme; destruct (matchMedia t) as [[|]|]; reflexivity.
Qed.

Lemma initTheme_restores_choice_witness :
  let later := {| body_classes := []; themeToggle := None;
                  localStorage := localStorage (toggle_click (toggle_click sample_theme));
                  matchMedia := Some true |} in
  dark (initTheme later) = false.
Proof.
  intros later.
  destruct (initTheme_restores_choice (toggle_click sample_theme)) as (H & _).
  rewrite (H later); [reflexivity | discriminate | reflexivity].
Defined.
(*END*)

(** ** The frames of the animation *)

Lemma textContent_after_frame (c txt : jsstring) (p : page) :
  textContent
    (update scoreValue (set_color c) (update scoreValue (set_textContent txt) p)
       scoreValue) = txt.
Proof. reflexivity. Qed.

Lemma updateScore_elsewhere (Math_pow : float -> float -> float)
    (s start t : float) (p : page) (i : id) :
  i <> scoreValue -> fst (updateScore Math_pow s start t p) i = p i.
Proof.
  intros H. unfold updateScore. cbn [fst].
  assert (E : forall c txt,
             update scoreValue (set_color c)
               (update scoreValue (set_textContent txt) p) i = p i).
  { intros c txt. unfold update.
    destruct (id_eq_dec scoreValue i) as [<-|_]; [contradiction H|]; reflexivity. }
  destruct (75 <=? _)%float; [apply E|].
  destruct (50 <=? _)%float; apply E.
Qed.

(** The numeral shown for the scores of the service. *)
Lemma score_text (n : Z) :
  (0 <= n <= 100)%Z ->
  Number.toString (Math.round (Number.of_Z n)) = Number.decimal (Z.to_N n).
Proof.
  intros H.
  assert (A : forallb (fun k =>
                JsString.eqb
                  (Number.toString (Math.round (Number.of_Z (Z.of_nat k))))
                  (Number.decimal (N.of_nat k)))
              (List.seq 0 101) = true) by (vm_compute; reflexivity).
  rewrite forallb_forall in A.
  assert (I : In (Z.to_nat n) (List.seq 0 101)) by (apply in_seq; lia).
  specialize (A _ I). rewrite Z2Nat.id in A by lia.
  rewrite Z_nat_N in A.
  unfold JsString.eqb in A.
  destruct (list_eq_dec N.eq_dec _ _) as [E|_]; [exact E|discriminate].
Qed.

(** X16: the last frame of an animation writes the target itself,
    rounded, as the text of the score, requests no further frame and
    changes no other element, whatever the engine's [Math.pow] is beyond
    [Math.pow(+0, 3) = +0]; for an integer score from 0 to 100 the text
    is its decimal numeral. *)
Theorem last_frame_shows_target (Math_pow : float -> float -> float)
    (s start t : float) (p : page) :
  Math_pow 0%float 3%float = 0%float ->
  last_frame start t = true ->
  let p' := fst (updateScore Math_pow s start t p) in
  textContent (p' scoreValue) = Number.toString (Math.round s)
  /\ snd (updateScore Math_pow s start t p) = false
  /\ (forall i, i <> scoreValue -> p' i = p i)
  /\ (forall n : Z, s = Number.of_Z n -> (0 <= n <= 100)%Z ->
      textContent (p' scoreValue) = Number.decimal (Z.to_N n)).
Proof.
  intros Hpow H p'.
  assert (T : textContent (p' scoreValue) = Number.toString (Math.round s)).
  { unfold p', updateScore. cbn [fst].
    unfold last_frame in H. rewrite (min_one_reached _ H). unfold easeOutCubic.
    change (1 - 1)%float with 0%float. rewrite Hpow.
    change (1 - 0)%float with 1%float. rewrite float_mul_one_l.
    destruct (75 <=? s)%float; [apply textContent_after_frame|].
    destruct (50 <=? s)%float; apply textContent_after_frame. }
  split; [exact T|].
  split; [exact (proj1 (updateScore_last_frame Math_pow s start t p Hpow H))|].
  split; [intros i Hi; apply updateScore_elsewhere; exact Hi|].
  intros n -> Hn. rewrite T. apply score_text, Hn.
Qed.

Lemma last_frame_shows_target_witness :
  textContent (fst (updateScore cube 82 0.1 2000.1 (sample_page [] [])) scoreValue)
  = lit "82".
Proof.
  exact (proj1 (last_frame_shows_target cube 82 0.1 2000.1 (sample_page [] [])
                  eq_refl eq_refl)).
Defined.

(** X17: at finite times, [updateScore] requests another frame exactly
    when the frame is not the last one, that is, as long as the elapsed
    share of the 2000 ms is below 1 in the script's arithmetic; the
    target score and [Math.pow] play no part in it. *)
Theorem frame_requested_until_last (Math_pow : float -> float -> float)
    (s start t : float) (p : page) :
  is_finite start = true -> is_finite t = true ->
  snd (updateScore Math_pow s start t p) = negb (last_frame start t).
Proof.
  intros Hs Ht. destruct (last_frame start t) eqn:L.
  - unfold last_frame in L. unfold updateScore. cbn [snd negb].
    rewrite (min_one_reached _ L). reflexivity.
  - exact (updateScore_continues Math_pow s start t p Hs Ht L).
Qed.

Lemma frame_requested_until_last_witness :
  snd (updateScore cube 82 100 1100 (sample_page [] [])) = true
  /\ snd (updateScore cube 82 100 2100 (sample_page [] [])) = false.
Proof.
  split.
  - exact (frame_requested_until_last cube 82 100 1100 (sample_page [] [])
             eq_refl eq_refl).
  - exact (frame_requested_until_last cube 82 100 2100 (sample_page [] [])
             eq_refl eq_refl).
Defined.



